(** * simplyutil-server: the aggregation core, embedded and verified

    The Go sources are embedded shallowly:
    - [servermodels.go]: the canonical model and the upstream response shapes
      become records;
    - the service file ([fetchLandmarksFromFoursquare], [fetchWeatherFromOpenMeteo],
      [fetchRatesFromExchangeAPI], [fetchCitiesFromRestCountries], [geocodeCity],
      [parseV2APIKey]) becomes functions in a writer monad that records every
      outbound request, over a [World] that answers them;
    - the handler file ([GetCities], [GetCityData], [GetLandmarks], [GetWeather],
      [GetRates]) becomes functions to responses; the three goroutines of
      [GetCityData] become a step relation over their requests and channels;
    - [c.JSON] writes a body only when [json.Marshal] accepts it; the codec
      itself (encoding/json on the model types) is modelled after its
      documentation, over the field tags of [servermodels.go].

    Go strings are byte strings ([string] of 8-bit [ascii]), [int]/[int64] are
    [Z], [float64] is the kernel's binary64 [float], maps are [gmap]. *)

From Stdlib Require Import ZArith String Ascii List Lia.
From Stdlib Require Import Floats.PrimFloat.
From Stdlib Require Import DecimalString DecimalZ DecimalPos.
From stdpp Require Import base option gmap strings list fin_maps pretty relations sorting.

Local Open Scope Z_scope.

(** ** Go: the language-level operations the sources rely on *)
Module Go.

(** A runtime panic: the goroutine that raises it does not return. *)
Inductive panic : Type :=
| IndexOutOfRange (i len : nat)
| SliceOutOfRange (lo hi len : nat).

Definition byte_val (c : ascii) : Z := Z.of_N (N_of_ascii c).

(** [len(s)] for a string: its number of bytes. *)
Definition len (s : string) : nat := String.length s.

(** [s[i]]: the byte at offset [i]; only used below after a length check. *)
Definition byte_at (s : string) (i : nat) : Z :=
  match String.get i s with
  | Some c => byte_val c
  | None => 0
  end.

(** [s[lo:hi]]: panics unless [lo <= hi <= len(s)]. *)
Definition slice (s : string) (lo hi : nat) : panic + string :=
  if decide (lo ≤ hi ≤ len s)%nat
  then inr (String.substring lo (hi - lo) s)
  else inl (SliceOutOfRange lo hi (len s)).

(** *** unicode/utf8: decoding one code point, as [range] over a string does *)
Definition RuneError : Z := 0xFFFD.
Definition maskx : Z := 0x3F.
Definition mask2 : Z := 0x1F.
Definition mask3 : Z := 0x0F.
Definition mask4 : Z := 0x07.
Definition locb : Z := 0x80.
Definition hicb : Z := 0xBF.

Definition xx : Z := 0xF1.
Definition as_ : Z := 0xF0.
Definition s1 : Z := 0x02.
Definition s2 : Z := 0x13.
Definition s3 : Z := 0x03.
Definition s4 : Z := 0x23.
Definition s5 : Z := 0x34.
Definition s6 : Z := 0x04.
Definition s7 : Z := 0x44.

(** The table [first]: information about the first byte of an encoding. *)
Definition first (b : Z) : Z :=
  if b <? 0x80 then as_
  else if b <? 0xC2 then xx
  else if b <? 0xE0 then s1
  else if b =? 0xE0 then s2
  else if b <? 0xED then s3
  else if b =? 0xED then s4
  else if b <? 0xF0 then s3
  else if b =? 0xF0 then s5
  else if b <? 0xF4 then s6
  else if b =? 0xF4 then s7
  else xx.

(** The table [acceptRanges]: the range allowed for the second byte. *)
Definition acceptRanges (k : Z) : Z * Z :=
  if k =? 0 then (locb, hicb)
  else if k =? 1 then (0xA0, hicb)
  else if k =? 2 then (locb, 0x9F)
  else if k =? 3 then (0x90, hicb)
  else if k =? 4 then (locb, 0x8F)
  else (0, 0).

(** [utf8.DecodeRuneInString]: the rune at the start of [s] and its width. *)
Definition DecodeRuneInString (s : string) : Z * nat :=
  let n := len s in
  if (n <? 1)%nat then (RuneError, 0%nat) else
  let s0 := byte_at s 0 in
  let x := first s0 in
  if as_ <=? x then
    (* mask := rune(x) << 31 >> 31: all ones for xx, zero for as *)
    let mask := if Z.testbit x 0 then -1 else 0 in
    (Z.lor (Z.land s0 (Z.lnot mask)) (Z.land RuneError mask), 1%nat)
  else
  let sz := Z.to_nat (Z.land x 7) in
  let accept := acceptRanges (Z.shiftr x 4) in
  if (n <? sz)%nat then (RuneError, 1%nat) else
  let b1 := byte_at s 1 in
  if (b1 <? fst accept) || (snd accept <? b1) then (RuneError, 1%nat) else
  if (sz <=? 2)%nat then
    (Z.lor (Z.shiftl (Z.land s0 mask2) 6) (Z.land b1 maskx), 2%nat)
  else
  let b2 := byte_at s 2 in
  if (b2 <? locb) || (hicb <? b2) then (RuneError, 1%nat) else
  if (sz <=? 3)%nat then
    (Z.lor (Z.lor (Z.shiftl (Z.land s0 mask3) 12) (Z.shiftl (Z.land b1 maskx) 6))
           (Z.land b2 maskx), 3%nat)
  else
  let b3 := byte_at s 3 in
  if (b3 <? locb) || (hicb <? b3) then (RuneError, 1%nat) else
  (Z.lor (Z.lor (Z.lor (Z.shiftl (Z.land s0 mask4) 18) (Z.shiftl (Z.land b1 maskx) 12))
                (Z.shiftl (Z.land b2 maskx) 6))
         (Z.land b3 maskx), 4%nat).

(** [for i, ch := range s]: the iterations, each the byte offset at which a
    code point starts and the rune decoded there.  [skip] counts the bytes of
    the rune decoded last that are still to be passed over. *)
Fixpoint range_from (i skip : nat) (s : string) : list (nat * Z) :=
  match s with
  | EmptyString => []
  | String _ t =>
      match skip with
      | S k => range_from (S i) k t
      | O => let '(ch, w) := DecodeRuneInString s in
             (i, ch) :: range_from (S i) (w - 1) t
      end
  end.

Definition range_string (s : string) : list (nat * Z) := range_from 0 0 s.

(** Go's [int] on the 64-bit targets the server is built for. *)
Definition int_wrap (z : Z) : Z := (z + 2^63) mod 2^64 - 2^63.

End Go.

(** ** servermodels.go: the canonical model and the upstream response shapes *)
Module Models.

Definition float64 : Type := float.

(** [time.Time], as far as the server builds one: the zero value, or
    [time.Unix(sec, nsec)]. *)
Inductive Time : Type :=
| ZeroTime
| Unix (sec nsec : Z).

(** The instant a [Time] stands for, as seconds on the Unix clock and
    nanoseconds within the second: [time.Unix] carries the whole seconds of
    [nsec] over into [sec]; the zero value is January 1 of the year 1, 00:00
    UTC. *)
Definition instant (t : Time) : Z * Z :=
  match t with
  | ZeroTime => (-62135596800, 0)
  | Unix sec nsec => (sec + nsec / 1000000000, nsec mod 1000000000)
  end.

(** The first second of the year 0 and of the year 10000 on the Unix clock. *)
Definition year_0 : Z := -62167219200.
Definition year_10000 : Z := 253402300800.

Record City : Type := {
  City_ID : Z;
  City_Name : string;
  City_ThreeLetterCode : string;
  City_Currency : string;
  City_Country : string
}.

Record Landmark : Type := {
  Landmark_Name : string;
  Landmark_Address : string;
  Landmark_Latitude : float64;
  Landmark_Longitude : float64;
  Landmark_Rating : float64
}.

Record HourlyForecast : Type := {
  Hourly_Time : string;
  Hourly_Temperature : float64;
  Hourly_WindSpeed : float64;
  Hourly_RelativeHumidity : Z
}.

Record WeatherData : Type := {
  Weather_Latitude : float64;
  Weather_Longitude : float64;
  Weather_Hourly : list HourlyForecast
}.

Record RatesData : Type := {
  Rates_BaseCurrency : string;
  Rates_Rates : gmap string float64;
  Rates_Timestamp : Time
}.

(** The zero values [WeatherData{}] and [RatesData{}]. *)
Definition WeatherData_zero : WeatherData :=
  {| Weather_Latitude := 0%float; Weather_Longitude := 0%float; Weather_Hourly := [] |}.

Definition RatesData_zero : RatesData :=
  {| Rates_BaseCurrency := ""; Rates_Rates := ∅; Rates_Timestamp := ZeroTime |}.

(** [FoursquareV2Response] and its nested anonymous structs. *)
Record FoursquareLocation : Type := {
  Location_Lat : float64;
  Location_Lng : float64;
  Location_Address : string;
  Location_FormattedAddress : list string
}.

Record FoursquareVenue : Type := {
  Venue_Name : string;
  Venue_Rating : float64;
  Venue_Location : FoursquareLocation
}.

Record FoursquareItem : Type := { Item_Venue : FoursquareVenue }.

Record FoursquareGroup : Type := { Group_Items : list FoursquareItem }.

Record FoursquareBody : Type := { Body_Groups : list FoursquareGroup }.

Record FoursquareV2Response : Type := { Fsq_Response : FoursquareBody }.

(** [OpenMeteoResponse]: four parallel arrays under [hourly]. *)
Record OpenMeteoHourly : Type := {
  OM_Time : list string;
  OM_Temperature : list float64;
  OM_WindSpeed : list float64;
  OM_RelativeHumidity : list Z
}.

Record OpenMeteoResponse : Type := {
  OM_Latitude : float64;
  OM_Longitude : float64;
  OM_Hourly : OpenMeteoHourly
}.

Record ExchangeRateResponse : Type := {
  ER_Result : string;
  ER_BaseCode : string;
  ER_ConversionRates : gmap string float64;
  ER_TimeLastUpdateUnix : Z
}.

Record CountryName : Type := { Name_Common : string; Name_Official : string }.

Record CurrencyInfo : Type := { Currency_Name : string; Currency_Symbol : string }.

(** [RestCountry].  [Currencies] is a map the code compares with [nil]:
    [None] is the nil map (the field absent or [null] upstream), [Some m] a
    map that exists, possibly without entries (the upstream's [{}]). *)
Record RestCountry : Type := {
  RC_Name : CountryName;
  RC_CCA3 : string;
  RC_Capital : list string;
  RC_Currencies : option (gmap string CurrencyInfo)
}.

Record NominatimResult : Type := { Nom_Lat : float64; Nom_Lon : float64 }.

End Models.
Export Models.

(** ** Errors, outcomes and the outside world *)
Module Net.

(** The [error] values the service file builds or passes on. *)
Inductive error : Type :=
| TransportError (msg : string)
  (** the [err] of [http.Get] / [client.Do] *)
| DecodeError (msg : string)
  (** the [err] of [json.NewDecoder(resp.Body).Decode] *)
| StatusError (api : string) (code : Z) (body : string)
  (** [fmt.Errorf("<api> API error: %d - %s", resp.StatusCode, string(body))] *)
| LocationNotFound (query : string)
  (** [fmt.Errorf("location not found: %s", query)] *)
| APIKeyNotSet
  (** [fmt.Errorf("FOURSQUARE_API_KEY not set")] *)
| GeocodingFailed (err : error)
  (** [fmt.Errorf("geocoding failed: %w", err)] *).

(** [err.Error()] *)
Fixpoint Error (e : error) : string :=
  match e with
  | TransportError msg => msg
  | DecodeError msg => msg
  | StatusError api code body => api +:+ " API error: " +:+ pretty code +:+ " - " +:+ body
  | LocationNotFound query => "location not found: " +:+ query
  | APIKeyNotSet => "FOURSQUARE_API_KEY not set"
  | GeocodingFailed err => "geocoding failed: " +:+ Error err
  end.

(** What a call comes to: a value with a nil error, a non-nil error, or a
    panic of the goroutine running it. *)
Inductive outcome (A : Type) : Type :=
| Ok (a : A)
| Err (e : error)
| Panic (p : Go.panic).
Arguments Ok {A} a.
Arguments Err {A} e.
Arguments Panic {A} p.

(** A query-string value as the code formats it. *)
Inductive Value : Type :=
| VStr (s : string)
| VFloat (x : float64)            (** [fmt.Sprintf("%f", x)] *)
| VFloatPair (x y : float64)      (** [fmt.Sprintf("%f,%f", x, y)] *).

(** An outbound GET request: the URL before [?], the [url.Values] in the
    order they are added, and the headers set on it. *)
Record Request : Type := {
  Req_URL : string;
  Req_Values : list (string * Value);
  Req_Header : list (string * string)
}.

(** An upstream's answer once the transport succeeded: the status code, the
    body as [io.ReadAll] reads it, and what decoding the body as JSON into
    the caller's target type gives. *)
Record HttpResponse (T : Type) : Type := {
  StatusCode : Z;
  Body : string;
  Decoded : string + T
}.
Arguments StatusCode {T} _.
Arguments Body {T} _.
Arguments Decoded {T} _.

Inductive HttpResult (T : Type) : Type :=
| TransportFailed (msg : string)
| Responded (resp : HttpResponse T).
Arguments TransportFailed {T} msg.
Arguments Responded {T} resp.

(** Everything outside the process: its environment variables, the five
    upstream services, the order the runtime picks when the [k]-th country
    of the directory has its currency map ranged over, and the offset from
    UTC, in seconds, that the machine's local time zone has at a given second
    of the Unix clock. *)
Record World : Type := {
  Getenv : string → string;
  Nominatim : Request → HttpResult (list NominatimResult);
  Foursquare : Request → HttpResult FoursquareV2Response;
  OpenMeteo : Request → HttpResult OpenMeteoResponse;
  ExchangeRateAPI : Request → HttpResult ExchangeRateResponse;
  RestCountries : Request → HttpResult (list RestCountry);
  MapOrder : nat → nat;
  LocalOffset : Z → Z
}.

(** The offset of the location a [Time] carries: the zero value is in UTC,
    [time.Unix] gives a time in the local zone. *)
Definition zone_offset (w : World) (t : Time) : Z :=
  match t with
  | ZeroTime => 0
  | Unix _ _ => LocalOffset w (fst (instant t))
  end.

(** The seconds a clock on the wall shows at [t], in the location of [t]. *)
Definition wall_seconds (w : World) (t : Time) : Z := fst (instant t) + zone_offset w t.

(** [Time.MarshalJSON] writes RFC 3339 text, whose year has four digits: it
    returns an error unless the year of [t], read in its location, is within
    0..9999. *)
Definition year_in_range (w : World) (t : Time) : bool :=
  (year_0 <=? wall_seconds w t) && (wall_seconds w t <? year_10000).

(** The monad of the service file: an outcome together with the requests
    sent on the way, in order. *)
Definition M (A : Type) : Type := outcome A * list Request.

Definition ret {A} (a : A) : M A := (Ok a, []).

Definition bind {A B} (m : M A) (k : A → M B) : M B :=
  match m with
  | (Ok a, t) => let '(b, t') := k a in (b, t ++ t')
  | (Err e, t) => (Err e, t)
  | (Panic p, t) => (Panic p, t)
  end.

#[global] Instance M_ret : MRet M := @ret.
#[global] Instance M_bind : MBind M := λ A B k m, bind m k.

(** [return ..., err] *)
Definition throw {A} (e : error) : M A := (Err e, []).

(** [if err != nil { return ..., f(err) }] after a call. *)
Definition on_error {A} (f : error → error) (m : M A) : M A :=
  match m with
  | (Err e, t) => (Err (f e), t)
  | _ => m
  end.

(** A Go expression that may panic. *)
Definition runtime {A} (r : Go.panic + A) : M A :=
  match r with
  | inl p => (Panic p, [])
  | inr a => (Ok a, [])
  end.

(** [l[i]] *)
Definition index {A} (l : list A) (i : nat) : M A :=
  match l !! i with
  | Some a => ret a
  | None => (Panic (Go.IndexOutOfRange i (length l)), [])
  end.

(** [http.Get(url)] / [client.Do(req)] against the service that [url] names. *)
Definition send {T} (service : Request → HttpResult T) (req : Request)
  : M (HttpResponse T) :=
  match service req with
  | TransportFailed msg => (Err (TransportError msg), [req])
  | Responded resp => (Ok resp, [req])
  end.

(** [json.NewDecoder(resp.Body).Decode(&v)] *)
Definition decode {T} (resp : HttpResponse T) : M T :=
  match Decoded resp with
  | inl msg => throw (DecodeError msg)
  | inr v => ret v
  end.

(** [v, err := f(...)] followed by a test of [err]: the error is looked at,
    not propagated. *)
Definition attempt {A} (m : M A) : M (error + A) :=
  match m with
  | (Ok a, t) => (Ok (inr a), t)
  | (Err e, t) => (Ok (inl e), t)
  | (Panic p, t) => (Panic p, t)
  end.

Definition result {A} (m : M A) : outcome A := fst m.
Definition trace {A} (m : M A) : list Request := snd m.

End Net.
Export Net.

(** ** The service file: one adapter per upstream *)
Module Services.

(** [parseV2APIKey]: the body of the [range] loop, over the iterations left. *)
Fixpoint parseV2APIKey_loop (apiKey : string) (iterations : list (nat * Z))
  : M (string * string) :=
  match iterations with
  | [] => mret (apiKey, apiKey)
  | (i, ch) :: rest =>
      if ch =? 43 (* '+' *) then
        id ← runtime (Go.slice apiKey 0 i);
        secret ← runtime (Go.slice apiKey (i + 1) (Go.len apiKey));
        mret (id, secret)
      else parseV2APIKey_loop apiKey rest
  end.

Definition parseV2APIKey (apiKey : string) : M (string * string) :=
  parseV2APIKey_loop apiKey (Go.range_string apiKey).

(** The request [geocodeCity] builds: [url.Values] q, format, limit and the
    [User-Agent] header.  (The client's ten-second timeout is not modelled:
    a call that times out is a transport failure.) *)
Definition nominatimRequest (query : string) : Request :=
  {| Req_URL := "https://nominatim.openstreetmap.org/search";
     Req_Values := [("q", VStr query); ("format", VStr "json"); ("limit", VStr "1")];
     Req_Header := [("User-Agent", "SimplyUtil-iOS-App")] |}.

Definition geocodeQuery (cityName country : string) : string :=
  if decide (country ≠ "") then cityName +:+ ", " +:+ country else cityName.

Definition geocodeCity (w : World) (cityName country : string) : M (float64 * float64) :=
  let query := geocodeQuery cityName country in
  resp ← send (Nominatim w) (nominatimRequest query);
  results ← decode resp;
  if decide (length results = 0%nat) then throw (LocationNotFound query) else
  r0 ← index results 0;
  mret (Nom_Lat r0, Nom_Lon r0).

(** The conversion loop of [fetchLandmarksFromFoursquare]. *)
Fixpoint landmarks_loop (landmarks : list Landmark) (items : list FoursquareItem)
  : list Landmark :=
  match items with
  | [] => landmarks
  | item :: rest =>
      let venue := Item_Venue item in
      let landmark := {| Landmark_Name := Venue_Name venue;
                         Landmark_Address := Location_Address (Venue_Location venue);
                         Landmark_Latitude := Location_Lat (Venue_Location venue);
                         Landmark_Longitude := Location_Lng (Venue_Location venue);
                         Landmark_Rating := Venue_Rating venue |} in
      landmarks_loop (landmarks ++ [landmark]) rest
  end.

Definition foursquareRequest (lat lon : float64) (clientID clientSecret : string) : Request :=
  {| Req_URL := "https://api.foursquare.com/v2/venues/explore";
     Req_Values := [("ll", VFloatPair lat lon);
                    ("client_id", VStr clientID);
                    ("client_secret", VStr clientSecret);
                    ("v", VStr "20240101");
                    ("radius", VStr "5000");
                    ("section", VStr "sights");
                    ("limit", VStr "20")];
     Req_Header := [] |}.

Definition fetchLandmarksFromFoursquare (w : World) (cityName country : string)
  : M (list Landmark) :=
  '(lat, lon) ← on_error GeocodingFailed (geocodeCity w cityName country);
  let apiKey := Getenv w "FOURSQUARE_API_KEY" in
  if decide (apiKey = "") then throw APIKeyNotSet else
  '(clientID, clientSecret) ← parseV2APIKey apiKey;
  resp ← send (Foursquare w) (foursquareRequest lat lon clientID clientSecret);
  if decide (StatusCode resp ≠ 200)
  then throw (StatusError "foursquare" (StatusCode resp) (Body resp)) else
  fsResponse ← decode resp;
  let groups := Body_Groups (Fsq_Response fsResponse) in
  if decide (0 < length groups)%nat then
    group0 ← index groups 0;
    mret (landmarks_loop [] (Group_Items group0))
  else mret [].

(** The zip loop of [fetchWeatherFromOpenMeteo]: [n] iterations are left,
    the next one at index [i]. *)
Fixpoint hourly_loop (h : OpenMeteoHourly) (hourly : list HourlyForecast) (i n : nat)
  : M (list HourlyForecast) :=
  match n with
  | O => mret hourly
  | S n' =>
      time ← index (OM_Time h) i;
      temperature ← index (OM_Temperature h) i;
      windSpeed ← index (OM_WindSpeed h) i;
      relativeHumidity ← index (OM_RelativeHumidity h) i;
      hourly_loop h (hourly ++ [{| Hourly_Time := time;
                                   Hourly_Temperature := temperature;
                                   Hourly_WindSpeed := windSpeed;
                                   Hourly_RelativeHumidity := relativeHumidity |}])
                  (S i) n'
  end.

Definition openMeteoRequest (lat lon : float64) : Request :=
  {| Req_URL := "https://api.open-meteo.com/v1/forecast";
     Req_Values := [("latitude", VFloat lat);
                    ("longitude", VFloat lon);
                    ("hourly", VStr "temperature_2m,relative_humidity_2m,wind_speed_10m");
                    ("forecast_days", VStr "1")];
     Req_Header := [] |}.

Definition fetchWeatherFromOpenMeteo (w : World) (cityName : string) : M WeatherData :=
  '(lat, lon) ← on_error GeocodingFailed (geocodeCity w cityName "");
  resp ← send (OpenMeteo w) (openMeteoRequest lat lon);
  if decide (StatusCode resp ≠ 200)
  then throw (StatusError "open-meteo" (StatusCode resp) (Body resp)) else
  weatherResponse ← decode resp;
  let h := OM_Hourly weatherResponse in
  hourly ← hourly_loop h [] 0 (length (OM_Time h));
  mret {| Weather_Latitude := lat; Weather_Longitude := lon; Weather_Hourly := hourly |}.

(** The request of [fetchRatesFromExchangeAPI]: the key and the base currency
    go into the path as they are.  ([http.Get] gives up on a URL that net/url
    cannot parse before it sends anything; a [World] answers such a request
    with a transport failure, and the trace still lists the request.) *)
Definition exchangeRateRequest (baseCurrency : string) : Request :=
  let apiKey := "c04b66e4d1f1f147c60834b3" in
  {| Req_URL := "https://v6.exchangerate-api.com/v6/" +:+ apiKey +:+ "/latest/" +:+ baseCurrency;
     Req_Values := [];
     Req_Header := [] |}.

Definition fetchRatesFromExchangeAPI (w : World) (baseCurrency : string) : M RatesData :=
  resp ← send (ExchangeRateAPI w) (exchangeRateRequest baseCurrency);
  if decide (StatusCode resp ≠ 200)
  then throw (StatusError "exchange-rate" (StatusCode resp) (Body resp)) else
  ratesResponse ← decode resp;
  mret {| Rates_BaseCurrency := ER_BaseCode ratesResponse;
          Rates_Rates := ER_ConversionRates ratesResponse;
          Rates_Timestamp := Unix (ER_TimeLastUpdateUnix ratesResponse) 0 |}.

(** [for code := range m { currencyCode = code; break }] with [currencyCode]
    starting as the empty string: ranging over a nil or empty map runs no
    iteration; otherwise the runtime starts at an entry of its choosing,
    here the one [seed] selects. *)
Definition first_key {V} (seed : nat) (m : option (gmap string V)) : string :=
  match m with
  | None => ""
  | Some m =>
      match map_to_list m !! (seed mod size m)%nat with
      | Some (code, _) => code
      | None => ""
      end
  end.

Definition is_nil {A} (m : option A) : bool :=
  match m with None => true | Some _ => false end.

(** The conversion loop of [fetchCitiesFromRestCountries]; [k] counts the
    countries passed so far. *)
Fixpoint cities_loop (w : World) (k : nat) (cities : list City) (id : Z)
    (countries : list RestCountry) : M (list City) :=
  match countries with
  | [] => mret cities
  | country :: rest =>
      if (length (RC_Capital country) =? 0)%nat || is_nil (RC_Currencies country)
      then cities_loop w (S k) cities id rest
      else
        let currencyCode := first_key (MapOrder w k) (RC_Currencies country) in
        capital0 ← index (RC_Capital country) 0;
        let city := {| City_ID := id;
                       City_Name := capital0;
                       City_ThreeLetterCode := RC_CCA3 country;
                       City_Currency := currencyCode;
                       City_Country := Name_Common (RC_Name country) |} in
        cities_loop w (S k) (cities ++ [city]) (Go.int_wrap (id + 1)) rest
  end.

Definition restCountriesRequest : Request :=
  {| Req_URL := "https://restcountries.com/v3.1/all?fields=name,cca3,capital,currencies";
     Req_Values := [];
     Req_Header := [] |}.

Definition fetchCitiesFromRestCountries (w : World) : M (list City) :=
  resp ← send (RestCountries w) restCountriesRequest;
  if decide (StatusCode resp ≠ 200)
  then throw (StatusError "rest-countries" (StatusCode resp) (Body resp)) else
  countries ← decode resp;
  cities_loop w 0 [] 1 countries.

End Services.
Export Services.

(** ** The handler file *)
Module Handlers.

(** The values the handlers put into a JSON body ([any]). *)
Inductive any : Type :=
| AString (s : string)
| AInt (n : Z)
| ACities (cities : list City)
| ALandmarks (landmarks : list Landmark)
| AWeather (weather : WeatherData)
| ARates (rates : RatesData).

(** The body of a response: the [gin.H] or the model value given to
    [c.JSON], or nothing at all. *)
Inductive object : Type :=
| H (fields : gmap string any)
| Plain (v : any)
| NoBody.

(** What [c.JSON(code, obj)] writes. *)
Record Response : Type := { Status : Z; JSON : object }.

(** [json.Marshal] on a value of a body.  The strings, integers and slices
    always encode; the floats of a body come out of the JSON decoder of an
    upstream answer, which stores finite values only, and every finite float
    encodes.  What is left is the [time.Time] of a RatesData, built by
    [time.Unix] from an upstream integer: it encodes when its year is within
    0..9999. *)
Definition marshals (w : World) (v : any) : bool :=
  match v with
  | ARates rates => year_in_range w (Rates_Timestamp rates)
  | _ => true
  end.

Definition encodable (w : World) (obj : object) : bool :=
  match obj with
  | H fields => bool_decide (map_Forall (λ _ v, marshals w v = true) fields)
  | Plain v => marshals w v
  | NoBody => true
  end.

(** [c.JSON(code, obj)]: gin sets the status, then renders [obj] with
    [json.Marshal] and writes the bytes.  When the encoder returns an error,
    gin records it on the context and aborts: the status stands and no byte
    of a body is written. *)
Definition c_JSON (w : World) (code : Z) (obj : object) : Response :=
  {| Status := code; JSON := if encodable w obj then obj else NoBody |}.

Definition StatusOK : Z := 200.
Definition StatusBadRequest : Z := 400.
Definition StatusInternalServerError : Z := 500.

(** The part of [gin.Context] the handlers read: the path parameters of the
    matched route and the parsed query string ([url.Values]). *)
Record Context : Type := {
  PathParams : list (string * string);
  QueryValues : gmap string (list string)
}.

(** [c.Param(key)]: the value of the first parameter named [key], or [""]. *)
Fixpoint ByName (ps : list (string * string)) (key : string) : string :=
  match ps with
  | [] => ""
  | (k, v) :: rest => if decide (k = key) then v else ByName rest key
  end.

Definition Param (c : Context) (key : string) : string := ByName (PathParams c) key.

(** [c.Query(key)]: the first value of [key] in the query string, or [""]. *)
Definition Query (c : Context) (key : string) : string :=
  match QueryValues c !! key with
  | Some (v :: _) => v
  | _ => ""
  end.

Definition GetCities (w : World) (c : Context) : M Response :=
  r ← attempt (fetchCitiesFromRestCountries w);
  match r with
  | inl err =>
      mret (c_JSON w StatusInternalServerError
              (H {[ "error" := AString "Failed to fetch cities";
                    "message" := AString (Error err) ]}))
  | inr cities =>
      mret (c_JSON w StatusOK
              (H {[ "cities" := ACities cities;
                    "count" := AInt (Z.of_nat (length cities)) ]}))
  end.

Definition GetLandmarks (w : World) (c : Context) : M Response :=
  let cityName := Query c "city" in
  let country := Query c "country" in
  if decide (cityName = "") then
    mret (c_JSON w StatusBadRequest (H {[ "error" := AString "city parameter is required" ]}))
  else
  r ← attempt (fetchLandmarksFromFoursquare w cityName country);
  match r with
  | inl err =>
      mret (c_JSON w StatusInternalServerError
              (H {[ "error" := AString "Failed to fetch landmarks";
                    "message" := AString (Error err) ]}))
  | inr landmarks =>
      mret (c_JSON w StatusOK
              (H {[ "landmarks" := ALandmarks landmarks;
                    "count" := AInt (Z.of_nat (length landmarks)) ]}))
  end.

Definition GetWeather (w : World) (c : Context) : M Response :=
  let cityName := Query c "city" in
  if decide (cityName = "") then
    mret (c_JSON w StatusBadRequest (H {[ "error" := AString "city parameter is required" ]}))
  else
  r ← attempt (fetchWeatherFromOpenMeteo w cityName);
  match r with
  | inl err =>
      mret (c_JSON w StatusInternalServerError
              (H {[ "error" := AString "Failed to fetch weather";
                    "message" := AString (Error err) ]}))
  | inr weather =>
      mret (c_JSON w StatusOK (H {[ "weather" := AWeather weather ]}))
  end.

Definition GetRates (w : World) (c : Context) : M Response :=
  let currency := Param c "currency" in
  if decide (currency = "") then
    mret (c_JSON w StatusBadRequest
            (H {[ "error" := AString "currency parameter is required" ]}))
  else
  r ← attempt (fetchRatesFromExchangeAPI w currency);
  match r with
  | inl err =>
      mret (c_JSON w StatusInternalServerError
              (H {[ "error" := AString "Failed to fetch rates";
                    "message" := AString (Error err) ]}))
  | inr rates => mret (c_JSON w StatusOK (Plain (ARates rates)))
  end.

(** *** [GetCityData]: three goroutines and their channels *)

(** The result structs sent over the channels; a nil [err] is [None]. *)
Record landmarksResult : Type := { lr_landmarks : list Landmark; lr_err : option error }.
Record weatherResult : Type := { wr_weather : WeatherData; wr_err : option error }.
Record ratesResult : Type := { rr_rates : RatesData; rr_err : option error }.

(** The bodies of the three [go func() { ... }()] up to their channel send:
    the value each one is about to send. *)
Definition landmarksTask (w : World) (cityName country : string) : M landmarksResult :=
  r ← attempt (fetchLandmarksFromFoursquare w cityName country);
  match r with
  | inr landmarks => mret {| lr_landmarks := landmarks; lr_err := None |}
  | inl err => mret {| lr_landmarks := []; lr_err := Some err |}
  end.

Definition weatherTask (w : World) (cityName : string) : M weatherResult :=
  r ← attempt (fetchWeatherFromOpenMeteo w cityName);
  match r with
  | inr weather => mret {| wr_weather := weather; wr_err := None |}
  | inl err => mret {| wr_weather := WeatherData_zero; wr_err := Some err |}
  end.

Definition ratesTask (w : World) : M ratesResult :=
  r ← attempt (fetchRatesFromExchangeAPI w "USD");
  match r with
  | inr rates => mret {| rr_rates := rates; rr_err := None |}
  | inl err => mret {| rr_rates := RatesData_zero; rr_err := Some err |}
  end.

(** "Build response" and the [c.JSON] after it: what the handler writes once
    it holds all three results. *)
Definition buildResponse (w : World) (cityName country : string)
    (landmarksRes : landmarksResult) (weatherRes : weatherResult) (ratesRes : ratesResult)
  : Response :=
  let response : gmap string any :=
    {[ "city" := AString cityName; "country" := AString country ]} in
  let response :=
    match lr_err landmarksRes with
    | None => <["landmarks" := ALandmarks (lr_landmarks landmarksRes)]> response
    | Some err => <["landmarks_error" := AString (Error err)]> response
    end in
  let response :=
    match wr_err weatherRes with
    | None => <["weather" := AWeather (wr_weather weatherRes)]> response
    | Some err => <["weather_error" := AString (Error err)]> response
    end in
  let response :=
    match rr_err ratesRes with
    | None => <["rates" := ARates (rr_rates ratesRes)]> response
    | Some err => <["rates_error" := AString (Error err)]> response
    end in
  c_JSON w StatusOK (H response).

(** A spawned goroutine: still fetching, with the first [n] requests of its
    fetch sent and answered; blocked on its (unbuffered) channel with the
    value to send; or done. *)
Inductive goroutine (R : Type) : Type :=
| Fetching (n : nat)
| Sending (r : R)
| Exited.
Arguments Fetching {R} n.
Arguments Sending {R} r.
Arguments Exited {R}.

(** The handler's own goroutine: at one of its three receives, or past
    [c.JSON]. *)
Inductive handler : Type :=
| RecvLandmarks
| RecvWeather (landmarksRes : landmarksResult)
| RecvRates (landmarksRes : landmarksResult) (weatherRes : weatherResult)
| Written (resp : Response).

(** The process while it serves one bundle request.  A panic in a spawned
    goroutine is recovered by nobody: the process is gone, and nothing is
    written. *)
Inductive state : Type :=
| Serving (gl : goroutine landmarksResult) (gw : goroutine weatherResult)
          (gr : goroutine ratesResult) (h : handler) (sent : list Request)
| Crashed (p : Go.panic) (sent : list Request).

(** The state right after the three [go] statements. *)
Definition GetCityData_start : state :=
  Serving (Fetching 0) (Fetching 0) (Fetching 0) RecvLandmarks [].

(** One step of some goroutine: a fetching goroutine sends its next request,
    or, with all its requests sent, comes to its result and turns to its
    channel, or panics; a send and its receive happen together. *)
Inductive GetCityData_step (w : World) (c : Context) : state → state → Prop :=
| landmarks_request gw gr h sent n req :
    trace (landmarksTask w (Param c "name") (Param c "country")) !! n = Some req →
    GetCityData_step w c (Serving (Fetching n) gw gr h sent)
                         (Serving (Fetching (S n)) gw gr h (sent ++ [req]))
| landmarks_fetched gw gr h sent r t :
    landmarksTask w (Param c "name") (Param c "country") = (Ok r, t) →
    GetCityData_step w c (Serving (Fetching (length t)) gw gr h sent)
                         (Serving (Sending r) gw gr h sent)
| landmarks_panicked gw gr h sent p t :
    landmarksTask w (Param c "name") (Param c "country") = (Panic p, t) →
    GetCityData_step w c (Serving (Fetching (length t)) gw gr h sent) (Crashed p sent)
| weather_request gl gr h sent n req :
    trace (weatherTask w (Param c "name")) !! n = Some req →
    GetCityData_step w c (Serving gl (Fetching n) gr h sent)
                         (Serving gl (Fetching (S n)) gr h (sent ++ [req]))
| weather_fetched gl gr h sent r t :
    weatherTask w (Param c "name") = (Ok r, t) →
    GetCityData_step w c (Serving gl (Fetching (length t)) gr h sent)
                         (Serving gl (Sending r) gr h sent)
| weather_panicked gl gr h sent p t :
    weatherTask w (Param c "name") = (Panic p, t) →
    GetCityData_step w c (Serving gl (Fetching (length t)) gr h sent) (Crashed p sent)
| rates_request gl gw h sent n req :
    trace (ratesTask w) !! n = Some req →
    GetCityData_step w c (Serving gl gw (Fetching n) h sent)
                         (Serving gl gw (Fetching (S n)) h (sent ++ [req]))
| rates_fetched gl gw h sent r t :
    ratesTask w = (Ok r, t) →
    GetCityData_step w c (Serving gl gw (Fetching (length t)) h sent)
                         (Serving gl gw (Sending r) h sent)
| rates_panicked gl gw h sent p t :
    ratesTask w = (Panic p, t) →
    GetCityData_step w c (Serving gl gw (Fetching (length t)) h sent) (Crashed p sent)
| landmarks_received gw gr sent r :
    GetCityData_step w c (Serving (Sending r) gw gr RecvLandmarks sent)
                         (Serving Exited gw gr (RecvWeather r) sent)
| weather_received gl gr sent lr r :
    GetCityData_step w c (Serving gl (Sending r) gr (RecvWeather lr) sent)
                         (Serving gl Exited gr (RecvRates lr r) sent)
| rates_received gl gw sent lr wr r :
    GetCityData_step w c (Serving gl gw (Sending r) (RecvRates lr wr) sent)
                         (Serving gl gw Exited
                            (Written (buildResponse w (Param c "name") (Param c "country")
                                        lr wr r))
                            sent).

(** The response a state holds, if the handler has written one. *)
Definition written (s : state) : option Response :=
  match s with
  | Serving _ _ _ (Written resp) _ => Some resp
  | _ => None
  end.

End Handlers.
Export Handlers.

(** ** encoding/json on the model types

    The handlers give the model values to [json.Marshal] (inside [c.JSON]),
    and the tests of the repository read them back with [json.Unmarshal].
    Neither function is code of the repository: both are modelled here after
    the documentation of encoding/json, over the field tags of
    [servermodels.go].  A JSON text is kept as its syntax tree, a number
    token as its literal and a string token as the bytes it denotes.  The
    conversions of strconv between a float64 and its literal, and those of
    package time between a time and its RFC 3339 text, are taken as a
    [Library]. *)
Module Codec.

#[warnings="-register-all"] Inductive value : Type :=
| Null
| Bool (b : bool)
| Number (literal : string)
| Str (s : string)
| Array (items : list value)
| Object (members : list (string * value)).

(** The errors [json.Marshal] returns on the model types. *)
Inductive MarshalError : Type :=
| UnsupportedValue (f : float64)
  (** [json: unsupported value]: NaN, +Inf or -Inf *)
| YearOutOfRange (t : Time)
  (** [Time.MarshalJSON: year outside of range [0,9999]] *).

(** What the codec calls in strconv and in package time. *)
Record Library : Type := {
  (** [strconv.AppendFloat(b, f, fmt, -1, 64)]: the shortest literal that
      reads back as [f], for a finite [f] *)
  FormatFloat : float64 → string;
  (** [strconv.ParseFloat(s, 64)]; [None] when it returns an error *)
  ParseFloat : string → option float64;
  (** [Time.AppendFormat(b, time.RFC3339Nano)] for a time whose clock on the
      wall shows the given second and nanosecond, in a zone of the given
      offset in seconds *)
  FormatRFC3339 : Z → Z → Z → string;
  (** [time.Parse(time.RFC3339, s)]: the second and nanosecond the text
      shows and the offset of its zone; [None] when it returns an error *)
  ParseRFC3339 : string → option (Z * Z * Z)
}.

(** *** Strings: coerced to valid UTF-8 *)

(** U+FFFD, the replacement rune, in UTF-8. *)
Definition replacement : string :=
  String "239" (String "191" (String "189" EmptyString)).

(** "String values encode as JSON strings coerced to valid UTF-8, replacing
    invalid bytes with the Unicode replacement rune": a byte at which
    [utf8.DecodeRuneInString] gives [RuneError] with width 1 is replaced,
    every other rune is kept.  [skip] counts the bytes of the rune decoded
    last that are still to be copied. *)
Fixpoint coerce_from (skip : nat) (s : string) : string :=
  match s with
  | EmptyString => EmptyString
  | String b t =>
      match skip with
      | S k => String b (coerce_from k t)
      | O => let '(ch, width) := Go.DecodeRuneInString s in
             if (ch =? Go.RuneError) && (width =? 1)%nat
             then replacement +:+ coerce_from 0 t
             else String b (coerce_from (width - 1) t)
      end
  end.

Definition ToValidUTF8 (s : string) : string := coerce_from 0 s.








(** *** [json.Marshal]: the first error ends the encoding *)
Definition and_then {A B} (m : MarshalError + A) (k : A → MarshalError + B)
  : MarshalError + B :=
  match m with
  | inl e => inl e
  | inr a => k a
  end.


Definition encode_string (s : string) : value := Str (ToValidUTF8 s).


(** "NaN and +/-Inf values will return an [UnsupportedValueError]". *)
Definition encode_float (lib : Library) (f : float64) : MarshalError + value :=
  if is_finite f then inr (Number (FormatFloat lib f)) else inl (UnsupportedValue f).

(** [Time.MarshalJSON]: "The time is a quoted string in the RFC 3339 format
    with sub-second precision.  If the timestamp cannot be represented as
    valid RFC 3339 (e.g., the year is out of range), then an error is
    reported." *)
Definition encode_time (lib : Library) (w : World) (t : Time) : MarshalError + value :=
  if year_in_range w t
  then inr (Str (FormatRFC3339 lib (wall_seconds w t) (snd (instant t)) (zone_offset w t)))
  else inl (YearOutOfRange t).

(** "The map keys are sorted": the entries of a map in the order of their
    keys, compared byte by byte.  (A nil map or slice is written as [null];
    the model does not tell it from an empty one, writes both as the empty
    object or array, and reads all of these back as the empty map or list.) *)
Definition key_le {V} (p q : string * V) : Prop := String.leb p.1 q.1 = true.

#[global] Instance key_le_dec {V} (p q : string * V) : Decision (key_le p q) :=
  decide (String.leb p.1 q.1 = true).

Definition sorted_entries {V} (m : gmap string V) : list (string * V) :=
  merge_sort key_le (map_to_list m).

Fixpoint encode_entries (lib : Library) (entries : list (string * float64))
  : MarshalError + list (string * value) :=
  match entries with
  | [] => inr []
  | (k, f) :: rest =>
      and_then (encode_float lib f) (λ v,
      and_then (encode_entries lib rest) (λ members,
      inr ((ToValidUTF8 k, v) :: members)))
  end.

Definition encode_rates (lib : Library) (m : gmap string float64) : MarshalError + value :=
  and_then (encode_entries lib (sorted_entries m)) (λ members, inr (Object members)).





Definition Marshal_RatesData (lib : Library) (w : World) (rates : RatesData)
  : MarshalError + value :=
  and_then (encode_rates lib (Rates_Rates rates)) (λ entries,
  and_then (encode_time lib w (Rates_Timestamp rates)) (λ timestamp,
  inr (Object [("baseCurrency", encode_string (Rates_BaseCurrency rates));
               ("rates", entries);
               ("timestamp", timestamp)]))).





















End Codec.
Export Codec.

(** ** The properties the specification states, as predicates on the embedding *)
Module Claims.

(** *** [parseV2APIKey]: splitting on the first '+' byte, in the words of the
    specification *)
Fixpoint contains_plus (s : string) : bool :=
  match s with
  | EmptyString => false
  | String c t => (Go.byte_val c =? 43) || contains_plus t
  end.

Fixpoint split_first_plus (s : string) : option (string * string) :=
  match s with
  | EmptyString => None
  | String c t =>
      if Go.byte_val c =? 43 then Some (EmptyString, t)
      else match split_first_plus t with
           | Some (before, after) => Some (String c before, after)
           | None => None
           end
  end.

(** The first [n] bytes of [t], as far as [t] has them, are not '+'. *)
Definition no_plus_prefix (n : nat) (t : string) : Prop :=
  ∀ k, (k < n)%nat → Go.byte_at t k ≠ 43.

(** *** Upstream answers: the transport succeeded, the status is 200 and the
    body decodes *)
Definition answers {T} (service : Request → HttpResult T) (req : Request) (v : T) : Prop :=
  ∃ resp, service req = Responded resp ∧ StatusCode resp = 200 ∧ Decoded resp = inr v.

(** The places search succeeds for a city: geocoding gave a coordinate, the
    credential is set, and the places service answers with [fsResponse]. *)
Definition places_search_answers (w : World) (cityName country : string)
    (fsResponse : FoursquareV2Response) : Prop :=
  ∃ lat lon t clientID clientSecret,
    geocodeCity w cityName country = (Ok (lat, lon), t) ∧
    Getenv w "FOURSQUARE_API_KEY" ≠ "" ∧
    parseV2APIKey (Getenv w "FOURSQUARE_API_KEY") = mret (clientID, clientSecret) ∧
    answers (Foursquare w) (foursquareRequest lat lon clientID clientSecret) fsResponse.

(** The Landmark of one result item: every field from the item's venue. *)
Definition landmark_of (item : FoursquareItem) : Landmark :=
  {| Landmark_Name := Venue_Name (Item_Venue item);
     Landmark_Address := Location_Address (Venue_Location (Item_Venue item));
     Landmark_Latitude := Location_Lat (Venue_Location (Item_Venue item));
     Landmark_Longitude := Location_Lng (Venue_Location (Item_Venue item));
     Landmark_Rating := Venue_Rating (Item_Venue item) |}.

(** Every result item of a response: the items of all its groups. *)
Definition result_items (fsResponse : FoursquareV2Response) : list FoursquareItem :=
  concat (map Group_Items (Body_Groups (Fsq_Response fsResponse))).

(** The result items of the first group only. *)
Definition first_group_items (fsResponse : FoursquareV2Response) : list FoursquareItem :=
  match Body_Groups (Fsq_Response fsResponse) with
  | [] => []
  | group0 :: _ => Group_Items group0
  end.

(** C6 as the specification states it. *)
Definition every_item_becomes_a_landmark (w : World) (cityName country : string) : Prop :=
  ∀ fsResponse,
    places_search_answers w cityName country fsResponse →
    result (fetchLandmarksFromFoursquare w cityName country)
    = Ok (map landmark_of (result_items fsResponse)).

(** The weather service answers for a city: geocoding by name alone gave
    [(lat, lon)], sending [t], and the forecast service answers. *)
Definition forecast_answers (w : World) (cityName : string) (lat lon : float64)
    (t : list Request) (weatherResponse : OpenMeteoResponse) : Prop :=
  geocodeCity w cityName "" = (Ok (lat, lon), t) ∧
  answers (OpenMeteo w) (openMeteoRequest lat lon) weatherResponse.

(** Entry [i] of [hourly] holds the [i]-th element of each of the four arrays. *)
Definition index_aligned (h : OpenMeteoHourly) (hourly : list HourlyForecast) : Prop :=
  ∀ i, (i < length hourly)%nat →
    ∃ time temperature windSpeed relativeHumidity,
      OM_Time h !! i = Some time ∧
      OM_Temperature h !! i = Some temperature ∧
      OM_WindSpeed h !! i = Some windSpeed ∧
      OM_RelativeHumidity h !! i = Some relativeHumidity ∧
      hourly !! i = Some {| Hourly_Time := time;
                            Hourly_Temperature := temperature;
                            Hourly_WindSpeed := windSpeed;
                            Hourly_RelativeHumidity := relativeHumidity |}.

(** *** The country directory *)
Definition has_capital (country : RestCountry) : bool :=
  negb (length (RC_Capital country) =? 0)%nat.

Definition has_currency_entries (country : RestCountry) : bool :=
  match RC_Currencies country with
  | Some m => negb (size m =? 0)%nat
  | None => false
  end.

Definition has_both (country : RestCountry) : bool :=
  has_capital country && has_currency_entries country.

(** [city] is the entry of [country]: its first capital, its codes, and one
    of its declared currency codes. *)
Definition entry_of (country : RestCountry) (city : City) : Prop :=
  RC_Capital country !! 0%nat = Some (City_Name city) ∧
  City_ThreeLetterCode city = RC_CCA3 country ∧
  City_Country city = Name_Common (RC_Name country) ∧
  ∃ m, RC_Currencies country = Some m ∧ is_Some (m !! City_Currency city).

Definition named_and_priced (city : City) : Prop :=
  City_Name city ≠ "" ∧ City_Currency city ≠ "".

(** C3 as the specification states it. *)
Definition directory_is_filtered (w : World) : Prop :=
  ∀ countries,
    answers (RestCountries w) restCountriesRequest countries →
    ∃ cities,
      result (fetchCitiesFromRestCountries w) = Ok cities ∧
      Forall2 entry_of (List.filter has_both countries) cities ∧
      Forall named_and_priced cities.

(** A country that has a capital and a currency object without entries. *)
Definition capital_without_currency (country : RestCountry) : Prop :=
  RC_Capital country ≠ [] ∧ RC_Currencies country = Some ∅.

(** No string the directory lists for a country is empty. *)
Definition lists_no_empty_string (country : RestCountry) : Prop :=
  RC_Capital country !! 0%nat ≠ Some "" ∧
  ∀ m, RC_Currencies country = Some m → m !! "" = None.

(** *** The city bundle *)







(** A goroutine whose task sends [t] and comes to [r]: it has sent some of
    [t], or holds [r] at its channel, or is done. *)
Definition running {R} (g : goroutine R) (r : R) (t : list Request) : Prop :=
  (∃ n, g = Fetching n ∧ (n ≤ length t)%nat) ∨ g = Sending r ∨ g = Exited.

(** What holds of every state a request can reach when the three tasks
    come to [rl], [rw] and [rr], sending [tl], [tw] and [tr]: the handler
    holds what it has received, and it writes the response built from the
    three. *)
Definition collecting (w : World) (c : Context)
    (rl : landmarksResult) (rw : weatherResult) (rr : ratesResult)
    (tl tw tr : list Request) (s : state) : Prop :=
  match s with
  | Crashed _ _ => False
  | Serving gl gw gr h _ =>
      running gl rl tl ∧ running gw rw tw ∧ running gr rr tr ∧
      match h with
      | RecvLandmarks => gl ≠ Exited ∧ gw ≠ Exited ∧ gr ≠ Exited
      | RecvWeather l => l = rl ∧ gl = Exited ∧ gw ≠ Exited ∧ gr ≠ Exited
      | RecvRates l x => l = rl ∧ x = rw ∧ gl = Exited ∧ gw = Exited ∧ gr ≠ Exited
      | Written resp =>
          resp = buildResponse w (Param c "name") (Param c "country") rl rw rr ∧
          gl = Exited ∧ gw = Exited ∧ gr = Exited
      end
  end.

(** *** The codec: encoding, then decoding *)













End Claims.
Export Claims.

(** ** Concrete worlds, after the fixtures of the repository's tests *)
Module Examples.

Definition refused {T} : Request → HttpResult T :=
  λ _, TransportFailed "dial tcp: connection refused".

Definition ok_response {T} (v : T) : Request → HttpResult T :=
  λ _, Responded {| StatusCode := 200; Body := "(json)"; Decoded := inr v |}.

(** A process without environment whose every upstream is unreachable. *)
Definition offline : World :=
  {| Getenv := λ _, "";
     Nominatim := refused;
     Foursquare := refused;
     OpenMeteo := refused;
     ExchangeRateAPI := refused;
     RestCountries := refused;
     MapOrder := λ _, 0%nat;
     LocalOffset := λ _, 0 |}.

Definition london : NominatimResult := {| Nom_Lat := 51.5%float; Nom_Lon := (-0.125)%float |}.

Definition venue (name address : string) : FoursquareItem :=
  {| Item_Venue :=
       {| Venue_Name := name;
          Venue_Rating := 9.5%float;
          Venue_Location := {| Location_Lat := 51.5%float;
                               Location_Lng := (-0.125)%float;
                               Location_Address := address;
                               Location_FormattedAddress := [address; "London"] |} |} |}.

Definition big_ben : FoursquareItem := venue "Big Ben" "Westminster".
Definition tower_bridge : FoursquareItem := venue "Tower Bridge" "Tower Bridge Rd".

Definition sights (groups : list (list FoursquareItem)) : FoursquareV2Response :=
  {| Fsq_Response := {| Body_Groups := map (λ items, {| Group_Items := items |}) groups |} |}.

Definition forecast (time : list string) (temperature windSpeed : list float64)
    (relativeHumidity : list Z) : OpenMeteoResponse :=
  {| OM_Latitude := 51.5%float;
     OM_Longitude := (-0.125)%float;
     OM_Hourly := {| OM_Time := time;
                     OM_Temperature := temperature;
                     OM_WindSpeed := windSpeed;
                     OM_RelativeHumidity := relativeHumidity |} |}.

Definition two_hours : OpenMeteoResponse :=
  forecast ["2024-01-01T00:00"; "2024-01-01T01:00"] [10.5%float; 11.25%float]
           [5.25%float; 6.125%float] [75; 73].

(** One time stamp, two values in each of the other arrays. *)
Definition surplus_values : OpenMeteoResponse :=
  forecast ["2024-01-01T00:00"] [10.5%float; 11.25%float] [5.25%float; 6.125%float] [75; 73].

(** One time stamp, and the other three arrays absent from the body. *)
Definition time_only : OpenMeteoResponse := forecast ["2024-01-01T00:00"] [] [] [].

Definition pound : gmap string CurrencyInfo :=
  {[ "GBP" := {| Currency_Name := "British pound"; Currency_Symbol := "GBP" |} ]}.

Definition country (common cca3 : string) (capital : list string)
    (currencies : option (gmap string CurrencyInfo)) : RestCountry :=
  {| RC_Name := {| Name_Common := common; Name_Official := common |};
     RC_CCA3 := cca3;
     RC_Capital := capital;
     RC_Currencies := currencies |}.

Definition united_kingdom : RestCountry := country "United Kingdom" "GBR" ["London"] (Some pound).
Definition antarctica : RestCountry := country "Antarctica" "ATA" [] (Some ∅).
Definition unpriced : RestCountry := country "Terra Nullius" "XXX" ["Nowhere"] None.
Definition blank_capital : RestCountry := country "Blankland" "BLK" [""] (Some pound).
Definition empty_currencies : RestCountry := country "Barterland" "BRT" ["Swapton"] (Some ∅).

(** The scenario of the specification: the bundle for London, England when
    the rates call fails with a 500 and the other two succeed. *)
Definition rates_down : World :=
  {| Getenv := λ name, if decide (name = "FOURSQUARE_API_KEY")
                       then "CLIENT_ID+CLIENT_SECRET" else "";
     Nominatim := ok_response [london];
     Foursquare := ok_response (sights [[big_ben]]);
     OpenMeteo := ok_response two_hours;
     ExchangeRateAPI := λ _, Responded {| StatusCode := 500;
                                          Body := "Internal Server Error";
                                          Decoded := inl "invalid character 'I'" |};
     RestCountries := ok_response [united_kingdom; antarctica; unpriced];
     MapOrder := λ _, 0%nat;
     LocalOffset := λ _, 0 |}.

Definition with_forecast (weatherResponse : OpenMeteoResponse) : World :=
  {| Getenv := Getenv rates_down;
     Nominatim := Nominatim rates_down;
     Foursquare := Foursquare rates_down;
     OpenMeteo := ok_response weatherResponse;
     ExchangeRateAPI := ExchangeRateAPI rates_down;
     RestCountries := RestCountries rates_down;
     MapOrder := MapOrder rates_down;
     LocalOffset := LocalOffset rates_down |}.

Definition with_sights (fsResponse : FoursquareV2Response) : World :=
  {| Getenv := Getenv rates_down;
     Nominatim := Nominatim rates_down;
     Foursquare := ok_response fsResponse;
     OpenMeteo := OpenMeteo rates_down;
     ExchangeRateAPI := ExchangeRateAPI rates_down;
     RestCountries := RestCountries rates_down;
     MapOrder := MapOrder rates_down;
     LocalOffset := LocalOffset rates_down |}.

Definition with_directory (countries : list RestCountry) : World :=
  {| Getenv := Getenv offline;
     Nominatim := refused;
     Foursquare := refused;
     OpenMeteo := refused;
     ExchangeRateAPI := refused;
     RestCountries := ok_response countries;
     MapOrder := λ _, 0%nat;
     LocalOffset := λ _, 0 |}.

(** The geocoder answers with status 500 and a body that still decodes. *)
Definition geocoder_500 : World :=
  {| Getenv := Getenv offline;
     Nominatim := λ _, Responded {| StatusCode := 500; Body := "(json)"; Decoded := inr [london] |};
     Foursquare := refused;
     OpenMeteo := refused;
     ExchangeRateAPI := refused;
     RestCountries := refused;
     MapOrder := λ _, 0%nat;
     LocalOffset := λ _, 0 |}.

(** The rates service answers 200 with [result: error] and another base. *)
Definition rates_unsupported : ExchangeRateResponse :=
  {| ER_Result := "error";
     ER_BaseCode := "EUR";
     ER_ConversionRates := {[ "GBP" := 0.75%float ]};
     ER_TimeLastUpdateUnix := 1609459200 |}.

Definition rates_report_error : World :=
  {| Getenv := Getenv offline;
     Nominatim := refused;
     Foursquare := refused;
     OpenMeteo := refused;
     ExchangeRateAPI := ok_response rates_unsupported;
     RestCountries := refused;
     MapOrder := λ _, 0%nat;
     LocalOffset := λ _, 0 |}.

(** The rates service answers 200 with a time of last update that is the
    first second of the year 10000; the other upstreams as in [rates_down]. *)
Definition rates_from_year_10000 : ExchangeRateResponse :=
  {| ER_Result := "success";
     ER_BaseCode := "USD";
     ER_ConversionRates := {[ "GBP" := 0.75%float ]};
     ER_TimeLastUpdateUnix := 253402300800 |}.

Definition rates_in_year_10000 : World :=
  {| Getenv := Getenv rates_down;
     Nominatim := Nominatim rates_down;
     Foursquare := Foursquare rates_down;
     OpenMeteo := OpenMeteo rates_down;
     ExchangeRateAPI := ok_response rates_from_year_10000;
     RestCountries := RestCountries rates_down;
     MapOrder := MapOrder rates_down;
     LocalOffset := LocalOffset rates_down |}.

(** [GET /api/v1/cities/London/England] *)
Definition london_bundle : Context :=
  {| PathParams := [("name", "London"); ("country", "England")]; QueryValues := ∅ |}.

(** [GET /api/v1/landmarks?country=UK]: no city parameter. *)
Definition country_only : Context :=
  {| PathParams := []; QueryValues := {[ "country" := ["UK"] ]} |}.








End Examples.

(** ** Further predicates on the embedding, read off the sources *)
Module Behaviour.

(** The guard of the conversion loop of [fetchCitiesFromRestCountries], as
    the code writes it: the country is passed over when its capital list is
    empty or its currency map is nil. *)
Definition passes_guard (country : RestCountry) : bool :=
  negb ((length (RC_Capital country) =? 0)%nat || is_nil (RC_Currencies country)).

(** The City the loop emits for a country that passes the guard: the first
    capital, the codes, and as currency a key of the currency map, or the
    empty string when the map has no entry. *)
Definition emitted_as (country : RestCountry) (city : City) : Prop :=
  RC_Capital country !! 0%nat = Some (City_Name city) ∧
  City_ThreeLetterCode city = RC_CCA3 country ∧
  City_Country city = Name_Common (RC_Name country) ∧
  ∃ m, RC_Currencies country = Some m ∧
       ((m = ∅ ∧ City_Currency city = "") ∨ is_Some (m !! City_Currency city)).

(** Identifiers count up from [first] in list order. *)
Definition numbered_from (first : Z) (cities : list City) : Prop :=
  ∀ i city, cities !! i = Some city → City_ID city = first + Z.of_nat i.

(** [m] is an interleaving of [a] and [b]: it holds the elements of both,
    those of each in their own order. *)
Inductive interleaving {A : Type} : list A → list A → list A → Prop :=
| interleaving_nil : interleaving [] [] []
| interleaving_l x a b m : interleaving a b m → interleaving (x :: a) b (x :: m)
| interleaving_r x a b m : interleaving a b m → interleaving a (x :: b) (x :: m).

(** An interleaving of three lists. *)
Definition interleaving3 {A : Type} (a b c m : list A) : Prop :=
  ∃ ab, interleaving a b ab ∧ interleaving ab c m.

(** The requests a goroutine has sent, of the requests [t] of its task: the
    first [n] while it is fetching, all of them afterwards. *)
Definition requests_of {R} (g : goroutine R) (t : list Request) : list Request :=
  match g with
  | Fetching n => take n t
  | Sending _ | Exited => t
  end.

(** The requests sent so far are those the three goroutines have sent, each
    goroutine's in its own order. *)
Definition accounted (tl tw tr : list Request) (s : state) : Prop :=
  match s with
  | Serving gl gw gr _ sent =>
      interleaving3 (requests_of gl tl) (requests_of gw tw) (requests_of gr tr) sent
  | Crashed _ _ => True
  end.

(** While the weather goroutine is fetching, the handler is at its first or
    second receive. *)
Definition before_weather (tw : list Request) (s : state) : Prop :=
  match s with
  | Serving _ gw _ h _ =>
      (∃ n, gw = Fetching n ∧ (n ≤ length tw)%nat)
      ∧ match h with RecvLandmarks | RecvWeather _ => True | _ => False end
  | Crashed _ _ => True
  end.

(** The 500 response of a handler: a fixed text and the error's message. *)
Definition failure (what : string) (err : error) : Response :=
  {| Status := 500;
     JSON := H {[ "error" := AString what; "message" := AString (Error err) ]} |}.

End Behaviour.
Export Behaviour.

(** ** Further worlds *)
Module Fixtures.
Import Examples.

Definition status {T} (code : Z) (body : string) : Request → HttpResult T :=
  λ _, Responded {| StatusCode := code; Body := body; Decoded := inl "unexpected body" |}.

(** The geocoder finds nothing. *)
Definition nowhere : World :=
  {| Getenv := Getenv rates_down;
     Nominatim := ok_response [];
     Foursquare := Foursquare rates_down;
     OpenMeteo := OpenMeteo rates_down;
     ExchangeRateAPI := ExchangeRateAPI rates_down;
     RestCountries := RestCountries rates_down;
     MapOrder := MapOrder rates_down;
     LocalOffset := LocalOffset rates_down |}.

(** The geocoder answers, the places credential is not set. *)
Definition no_credential : World :=
  {| Getenv := λ _, "";
     Nominatim := ok_response [london];
     Foursquare := refused;
     OpenMeteo := refused;
     ExchangeRateAPI := refused;
     RestCountries := refused;
     MapOrder := λ _, 0%nat;
     LocalOffset := λ _, 0 |}.

(** Every upstream but the geocoder answers with a status other than 200;
    the places service with another 2xx. *)
Definition unavailable : World :=
  {| Getenv := Getenv rates_down;
     Nominatim := ok_response [london];
     Foursquare := status 204 "";
     OpenMeteo := status 429 "Too Many Requests";
     ExchangeRateAPI := status 404 "unsupported-code";
     RestCountries := status 503 "Service Unavailable";
     MapOrder := λ _, 0%nat;
     LocalOffset := λ _, 0 |}.

Definition euro : gmap string CurrencyInfo :=
  {[ "EUR" := {| Currency_Name := "Euro"; Currency_Symbol := "EUR" |} ]}.

Definition france : RestCountry := country "France" "FRA" ["Paris"] (Some euro).

(** [GET /api/v1/landmarks?city=London&country=England] *)
Definition london_query : Context :=
  {| PathParams := [];
     QueryValues := {[ "city" := ["London"]; "country" := ["England"] ]} |}.

(** [GET /api/v1/rates/USD] and a context whose currency parameter is empty. *)
Definition usd_rates : Context :=
  {| PathParams := [("currency", "USD")]; QueryValues := ∅ |}.

Definition no_currency : Context := {| PathParams := []; QueryValues := ∅ |}.

End Fixtures.

(** * Theorems *)
Import Examples.

(** ** [parseV2APIKey]: the [range] loop over code points splits at the first
    '+' byte *)
Section Utf8.

Lemma byte_val_range c : 0 ≤ Go.byte_val c < 256.
Proof.
  unfold Go.byte_val. pose proof (N_ascii_bounded c). lia.
Qed.

Lemma byte_at_range s k : 0 ≤ Go.byte_at s k < 256.
Proof.
  unfold Go.byte_at. destruct (String.get k s); [apply byte_val_range | lia].
Qed.

Lemma byte_at_S c t k : Go.byte_at (String c t) (S k) = Go.byte_at t k.
Proof. reflexivity. Qed.

Lemma rune_ge_64 x : Z.shiftr x 6 ≠ 0 → x ≠ 43.
Proof. intros H ->. apply H. reflexivity. Qed.

Ltac mask_to_mod :=
  repeat match goal with
  | H : context [Z.land ?a Go.maskx] |- _ =>
      change Go.maskx with (Z.ones 6) in H; rewrite (Z.land_ones a 6) in H by lia
  | H : context [Z.land ?a Go.mask2] |- _ =>
      change Go.mask2 with (Z.ones 5) in H; rewrite (Z.land_ones a 5) in H by lia
  | H : context [Z.land ?a Go.mask3] |- _ =>
      change Go.mask3 with (Z.ones 4) in H; rewrite (Z.land_ones a 4) in H by lia
  | H : context [Z.land ?a Go.mask4] |- _ =>
      change Go.mask4 with (Z.ones 3) in H; rewrite (Z.land_ones a 3) in H by lia
  end.

Ltac solve_rune :=
  apply rune_ge_64; rewrite ?Z.shiftr_lor, ?Z.shiftr_shiftl_l by lia;
  let Hz := fresh "Hz" in
  intros Hz;
  repeat match goal with
         | H : Z.lor _ _ = 0 |- _ => apply Z.lor_eq_0_iff in H; destruct H
         end;
  repeat match goal with
         | H : _ ≪ _ = 0 |- _ => apply Z.shiftl_eq_0_iff in H; [|lia]
         end;
  mask_to_mod; Z.div_mod_to_equations; lia.

Lemma decode_ascii c t :
  Go.byte_val c < 0x80 → Go.DecodeRuneInString (String c t) = (Go.byte_val c, 1%nat).
Proof.
  intros Hc. unfold Go.DecodeRuneInString.
  change (Go.byte_at (String c t) 0) with (Go.byte_val c).
  cbn [Go.len String.length Nat.ltb Nat.leb].
  unfold Go.first. destruct (Z.ltb_spec (Go.byte_val c) 128); [|lia].
  cbn. rewrite Z.land_m1_r, Z.land_0_r, Z.lor_0_r. reflexivity.
Qed.

Lemma first_cases s0 :
  0x80 ≤ s0 < 256 →
  Go.first s0 = Go.xx
  ∨ (0xC2 ≤ s0 < 0xE0 ∧ Go.first s0 = Go.s1)
  ∨ (s0 = 0xE0 ∧ Go.first s0 = Go.s2)
  ∨ (0xE1 ≤ s0 < 0xF0 ∧ s0 ≠ 0xED ∧ Go.first s0 = Go.s3)
  ∨ (s0 = 0xED ∧ Go.first s0 = Go.s4)
  ∨ (s0 = 0xF0 ∧ Go.first s0 = Go.s5)
  ∨ (0xF1 ≤ s0 < 0xF4 ∧ Go.first s0 = Go.s6)
  ∨ (s0 = 0xF4 ∧ Go.first s0 = Go.s7).
Proof.
  intros Hr. unfold Go.first.
  repeat match goal with
  | |- context [Z.ltb ?a ?b] => destruct (Z.ltb_spec a b)
  | |- context [Z.eqb ?a ?b] => destruct (Z.eqb_spec a b)
  end; try lia; intuition lia.
Qed.

Lemma decode_multibyte c t :
  0x80 ≤ Go.byte_val c →
  ∃ ch w, Go.DecodeRuneInString (String c t) = (ch, w) ∧ ch ≠ 43 ∧ no_plus_prefix (w - 1) t.
Proof.
  intros Hc. unfold Go.DecodeRuneInString.
  change (Go.byte_at (String c t) 0) with (Go.byte_val c).
  rewrite !byte_at_S.
  pose proof (byte_val_range c) as Hr.
  pose proof (byte_at_range t 0) as Hr1.
  pose proof (byte_at_range t 1) as Hr2.
  pose proof (byte_at_range t 2) as Hr3.
  assert (Hpre : ∀ n, (∀ k, (k < n)%nat → 0x80 ≤ Go.byte_at t k) → no_plus_prefix n t).
  { intros n H k Hk. specialize (H k Hk). lia. }
  assert (Hn : (1 ≤ Go.len (String c t))%nat) by (cbn; lia).
  set (n := Go.len (String c t)) in *.
  set (s0 := Go.byte_val c) in *.
  set (b1 := Go.byte_at t 0) in *.
  set (b2 := Go.byte_at t 1) in *.
  set (b3 := Go.byte_at t 2) in *.
  clearbody n s0.
  destruct (Nat.ltb_spec n 1) as [?|_]; [lia|].
  destruct (first_cases s0) as [H|[[? H]|[[? H]|[(?&?&H)|[[? H]|[[? H]|[[? H]|[? H]]]]]]]];
    [lia|..]; rewrite H.
  all: repeat match goal with
       | |- context [Z.to_nat (Z.land ?x 7)] =>
           let v := eval vm_compute in (Z.to_nat (Z.land x 7)) in
           change (Z.to_nat (Z.land x 7)) with v
       | |- context [Go.acceptRanges (?x ≫ 4)] =>
           let v := eval vm_compute in (Go.acceptRanges (x ≫ 4)) in
           change (Go.acceptRanges (x ≫ 4)) with v
       | |- context [Go.as_ <=? ?x] =>
           let v := eval vm_compute in (Go.as_ <=? x) in
           change (Go.as_ <=? x) with v
       end.
  all: cbn [fst snd Nat.leb]; change (Z.testbit Go.xx 0) with true; cbv iota.
  all: repeat match goal with
       | |- context [(?m <? ?k)%nat] => destruct (m <? k)%nat
       | |- context [Z.ltb ?a ?b] => destruct (Z.ltb_spec a b)
       end; cbn [orb].
  all: unfold Go.locb, Go.hicb in *.
  all: eexists _, _; (split; [reflexivity|]).
  all: try (split; [discriminate | apply Hpre; intros; lia]).
  all: split;
    [| apply Hpre; intros k Hk; cbn in Hk;
       destruct k as [|[|[|k]]];
       [change (Go.byte_at t 0) with b1 | change (Go.byte_at t 1) with b2
       | change (Go.byte_at t 2) with b3 |]; lia].
  - change (Z.lnot (-1)) with 0.
    rewrite Z.land_0_r, Z.land_m1_r, Z.lor_0_l. discriminate.
  - solve_rune.
  - solve_rune.
  - solve_rune.
  - solve_rune.
  - solve_rune.
  - solve_rune.
  - solve_rune.
Qed.

End Utf8.

Section ParseKey.

Lemma string_app_cons c a b : String c a +:+ b = String c (a +:+ b).
Proof. reflexivity. Qed.

Lemma string_length_app a b :
  String.length (a +:+ b) = (String.length a + String.length b)%nat.
Proof.
  induction a as [|c a IH]; [reflexivity|].
  rewrite string_app_cons. cbn [String.length]. by rewrite IH.
Qed.

Lemma string_app_snoc a c t : (a +:+ String c "") +:+ t = a +:+ String c t.
Proof.
  induction a as [|c' a IH]; [reflexivity|].
  rewrite !string_app_cons. by rewrite IH.
Qed.

Lemma string_app_nil_r a : a +:+ "" = a.
Proof.
  induction a as [|c a IH]; [reflexivity|].
  rewrite string_app_cons. by rewrite IH.
Qed.

Lemma substring_all s : String.substring 0 (String.length s) s = s.
Proof. induction s as [|c s IH]; [reflexivity|]. cbn. by rewrite IH. Qed.

Lemma substring_app_l a b :
  String.substring 0 (String.length a) (a +:+ b) = a.
Proof.
  induction a as [|c a IH]; [by destruct b|].
  rewrite string_app_cons. cbn. by rewrite IH.
Qed.

Lemma substring_app_r a b :
  String.substring (String.length a) (String.length b) (a +:+ b) = b.
Proof.
  induction a as [|c a IH]; [apply substring_all|].
  rewrite string_app_cons. exact IH.
Qed.

Lemma slice_before a b :
  Go.slice (a +:+ b) 0 (String.length a) = inr a.
Proof.
  unfold Go.slice, Go.len. rewrite string_length_app.
  rewrite decide_True by lia.
  by rewrite Nat.sub_0_r, substring_app_l.
Qed.

Lemma slice_after a c t :
  Go.slice (a +:+ String c t) (String.length a + 1) (Go.len (a +:+ String c t)) = inr t.
Proof.
  unfold Go.slice, Go.len. rewrite string_length_app. cbn [String.length].
  rewrite decide_True by lia.
  rewrite <- string_app_snoc.
  replace (String.length a + 1)%nat with (String.length (a +:+ String c "")) 
    by (rewrite string_length_app; reflexivity).
  replace (String.length a + S (String.length t) - _)%nat with (String.length t)
    by (rewrite string_length_app; cbn; lia).
  by rewrite substring_app_r.
Qed.

Lemma no_plus_prefix_tail k c t :
  no_plus_prefix (S k) (String c t) → Go.byte_val c ≠ 43 ∧ no_plus_prefix k t.
Proof.
  intros H. split.
  - apply (H 0%nat). lia.
  - intros j Hj. apply (H (S j)). lia.
Qed.

Lemma parseV2APIKey_loop_spec rest : ∀ done skip,
  no_plus_prefix skip rest →
  parseV2APIKey_loop (done +:+ rest) (Go.range_from (String.length done) skip rest)
  = mret (match split_first_plus rest with
          | Some (a, b) => (done +:+ a, b)
          | None => (done +:+ rest, done +:+ rest)
          end).
Proof.
  induction rest as [|c t IH]; intros done skip Hskip; [reflexivity|].
  assert (Hnext : ∀ k, no_plus_prefix k t → Go.byte_val c ≠ 43 →
            parseV2APIKey_loop (done +:+ String c t)
              (Go.range_from (S (String.length done)) k t)
            = mret (match split_first_plus (String c t) with
                    | Some (a, b) => (done +:+ a, b)
                    | None => (done +:+ String c t, done +:+ String c t)
                    end)).
  { intros k Hk Hc.
    specialize (IH (done +:+ String c "") k Hk).
    rewrite string_app_snoc, string_length_app in IH. cbn [String.length] in IH.
    rewrite Nat.add_1_r in IH. rewrite IH.
    cbn [split_first_plus]. destruct (Z.eqb_spec (Go.byte_val c) 43) as [?|_]; [done|].
    destruct (split_first_plus t) as [[a b]|]; [|reflexivity].
    by rewrite string_app_snoc. }
  destruct skip as [|k].
  - cbn [Go.range_from].
    destruct (Z.lt_ge_cases (Go.byte_val c) 0x80) as [Hlo|Hhi].
    + rewrite decode_ascii by done. cbn [parseV2APIKey_loop].
      destruct (Z.eqb_spec (Go.byte_val c) 43) as [Heq|Hne].
      * rewrite slice_before.
        rewrite slice_after. cbn [split_first_plus]. rewrite Heq. cbn.
        by rewrite string_app_nil_r.
      * apply Hnext; [|done]. intros j Hj. lia.
    + destruct (decode_multibyte c t Hhi) as (ch & w & -> & Hch & Hpre).
      cbn [parseV2APIKey_loop].
      destruct (Z.eqb_spec ch 43) as [?|_]; [done|].
      apply Hnext; [done|lia].
  - cbn [Go.range_from].
    apply no_plus_prefix_tail in Hskip as [Hc Hk]. by apply Hnext.
Qed.

End ParseKey.

Section ParseKeyClaim.

Lemma parseV2APIKey_refines apiKey :
  parseV2APIKey apiKey
  = mret (match split_first_plus apiKey with
          | Some parts => parts
          | None => (apiKey, apiKey)
          end).
Proof.
  unfold parseV2APIKey, Go.range_string.
  pose proof (parseV2APIKey_loop_spec apiKey "" 0%nat) as Hloop.
  change ("" +:+ apiKey) with apiKey in Hloop. change (String.length "") with 0%nat in Hloop.
  rewrite Hloop by (intros k Hk; lia).
  by destruct (split_first_plus apiKey) as [[??]|].
Qed.

Lemma split_first_plus_app before after :
  contains_plus before = false →
  split_first_plus (before +:+ "+" +:+ after) = Some (before, after).
Proof.
  induction before as [|c before IH]; intros Hno; [reflexivity|].
  cbn [contains_plus] in Hno. apply orb_false_iff in Hno as [Hc Hno].
  rewrite string_app_cons. cbn [split_first_plus]. rewrite Hc.
  by rewrite (IH Hno).
Qed.

Lemma split_first_plus_none s :
  contains_plus s = false → split_first_plus s = None.
Proof.
  induction s as [|c s IH]; intros Hno; [reflexivity|].
  cbn [contains_plus] in Hno. apply orb_false_iff in Hno as [Hc Hno].
  cbn [split_first_plus]. rewrite Hc. by rewrite (IH Hno).
Qed.

Lemma contains_plus_split s :
  contains_plus s = true →
  ∃ before after, s = before +:+ "+" +:+ after ∧ contains_plus before = false.
Proof.
  induction s as [|c s IH]; intros Hyes; [done|].
  cbn [contains_plus] in Hyes.
  destruct (Z.eqb_spec (Go.byte_val c) 43) as [Hc|Hc].
  - exists "", s. split; [|done].
    assert (c = "+"%char) as ->; [|done].
    rewrite <- (ascii_N_embedding c), <- (ascii_N_embedding "+").
    f_equal. unfold Go.byte_val in Hc. cbn. lia.
  - destruct (IH Hyes) as (before & after & -> & Hno).
    exists (String c before), after. split; [done|].
    cbn [contains_plus]. rewrite Hno. by destruct (Z.eqb_spec (Go.byte_val c) 43).
Qed.

(** C5. [parseV2APIKey] splits its input on the first '+' only: the four
    cases of the test table; every input that contains a '+' is some
    [before + "+" + after] with no '+' in [before], and yields
    [(before, after)]; an input without '+' yields itself twice.  It never
    panics and sends nothing. *)
Theorem parseV2APIKey_splits_on_first_plus :
  parseV2APIKey "CLIENT_ID+CLIENT_SECRET" = mret ("CLIENT_ID", "CLIENT_SECRET") ∧
  parseV2APIKey "SINGLE_KEY" = mret ("SINGLE_KEY", "SINGLE_KEY") ∧
  parseV2APIKey "ID+SECRET+EXTRA" = mret ("ID", "SECRET+EXTRA") ∧
  parseV2APIKey "" = mret ("", "") ∧
  (∀ apiKey, contains_plus apiKey = true →
     ∃ before after,
       apiKey = before +:+ "+" +:+ after ∧ contains_plus before = false ∧
       parseV2APIKey apiKey = mret (before, after)) ∧
  (∀ before after, contains_plus before = false →
     parseV2APIKey (before +:+ "+" +:+ after) = mret (before, after)) ∧
  (∀ apiKey, contains_plus apiKey = false →
     parseV2APIKey apiKey = mret (apiKey, apiKey)).
Proof.
  assert (Hsplit : ∀ before after, contains_plus before = false →
            parseV2APIKey (before +:+ "+" +:+ after) = mret (before, after)).
  { intros before after Hno.
    by rewrite parseV2APIKey_refines, split_first_plus_app. }
  repeat split; try reflexivity.
  - intros apiKey Hyes.
    destruct (contains_plus_split apiKey Hyes) as (before & after & -> & Hno).
    exists before, after. auto.
  - exact Hsplit.
  - intros apiKey Hno. by rewrite parseV2APIKey_refines, split_first_plus_none.
Qed.

Lemma parseV2APIKey_splits_witness :
  parseV2APIKey ("a" +:+ "+" +:+ "b+c") = mret ("a", "b+c") ∧
  parseV2APIKey "abc" = mret ("abc", "abc").
Proof.
  destruct parseV2APIKey_splits_on_first_plus as (_ & _ & _ & _ & _ & Hsplit & Hwhole).
  split; [apply Hsplit | apply Hwhole]; reflexivity.
Defined.

End ParseKeyClaim.

(** ** The monad of the service file *)
Section Monad.

Context {A B : Type}.

Lemma bind_ret_l (a : A) (k : A → M B) : (x ← mret a; k x) = k a.
Proof.
  unfold mbind, M_bind, bind, mret, M_ret, ret. by destruct (k a).
Qed.

Lemma index_Some (l : list A) i a : l !! i = Some a → index l i = mret a.
Proof. unfold index. by intros ->. Qed.

Lemma index_None (l : list A) i :
  l !! i = None → index l i = (Panic (Go.IndexOutOfRange i (length l)), []).
Proof. unfold index. by intros ->. Qed.

End Monad.

(** ** [fetchWeatherFromOpenMeteo]: the zip over the time array *)
Section Weather.

Variable h : OpenMeteoHourly.

Lemma hourly_loop_spec n : ∀ i hourly,
  (i + n ≤ length (OM_Time h))%nat →
  (i + n ≤ length (OM_Temperature h))%nat →
  (i + n ≤ length (OM_WindSpeed h))%nat →
  (i + n ≤ length (OM_RelativeHumidity h))%nat →
  ∃ out,
    hourly_loop h hourly i n = mret (hourly ++ out) ∧
    length out = n ∧
    ∀ j, (j < n)%nat →
      ∃ time temperature windSpeed relativeHumidity,
        OM_Time h !! (i + j)%nat = Some time ∧
        OM_Temperature h !! (i + j)%nat = Some temperature ∧
        OM_WindSpeed h !! (i + j)%nat = Some windSpeed ∧
        OM_RelativeHumidity h !! (i + j)%nat = Some relativeHumidity ∧
        out !! j = Some {| Hourly_Time := time;
                           Hourly_Temperature := temperature;
                           Hourly_WindSpeed := windSpeed;
                           Hourly_RelativeHumidity := relativeHumidity |}.
Proof.
  induction n as [|n IH]; intros i hourly Ht Hx Hy Hz.
  - exists []. rewrite app_nil_r. split; [done|]. split; [done|]. intros j Hj. lia.
  - destruct (lookup_lt_is_Some_2 (OM_Time h) i) as [t Hti]; [lia|].
    destruct (lookup_lt_is_Some_2 (OM_Temperature h) i) as [x Hxi]; [lia|].
    destruct (lookup_lt_is_Some_2 (OM_WindSpeed h) i) as [y Hyi]; [lia|].
    destruct (lookup_lt_is_Some_2 (OM_RelativeHumidity h) i) as [z Hzi]; [lia|].
    cbn [hourly_loop].
    rewrite (index_Some _ _ _ Hti), bind_ret_l.
    rewrite (index_Some _ _ _ Hxi), bind_ret_l.
    rewrite (index_Some _ _ _ Hyi), bind_ret_l.
    rewrite (index_Some _ _ _ Hzi), bind_ret_l.
    set (entry := {| Hourly_Time := t |}).
    destruct (IH (S i) (hourly ++ [entry])) as (out & Hloop & Hlen & Hout); [lia..|].
    exists (entry :: out). rewrite Hloop, <- app_assoc. split; [done|]. split; [cbn; lia|].
    intros [|j] Hj.
    + rewrite Nat.add_0_r. by exists t, x, y, z.
    + replace (i + S j)%nat with (S i + j)%nat by lia. apply Hout. lia.
Qed.

(** The other way round: when one of the three arrays is shorter than the
    time array, the loop reaches the first index that array lacks and panics. *)
Lemma hourly_loop_short n : ∀ i hourly,
  (i + n ≤ length (OM_Time h))%nat →
  (i ≤ length (OM_Temperature h))%nat →
  (i ≤ length (OM_WindSpeed h))%nat →
  (i ≤ length (OM_RelativeHumidity h))%nat →
  (length (OM_Temperature h) < i + n
   ∨ length (OM_WindSpeed h) < i + n
   ∨ length (OM_RelativeHumidity h) < i + n)%nat →
  ∃ p, hourly_loop h hourly i n = (Panic p, []).
Proof.
  induction n as [|n IH]; intros i hourly Ht Hx Hy Hz Hshort; [lia|].
  destruct (lookup_lt_is_Some_2 (OM_Time h) i) as [t Hti]; [lia|].
  cbn [hourly_loop]. rewrite (index_Some _ _ _ Hti), bind_ret_l.
  destruct (OM_Temperature h !! i) as [x|] eqn:Hxi;
    [rewrite (index_Some _ _ _ Hxi), bind_ret_l | rewrite (index_None _ _ Hxi); by eexists].
  destruct (OM_WindSpeed h !! i) as [y|] eqn:Hyi;
    [rewrite (index_Some _ _ _ Hyi), bind_ret_l | rewrite (index_None _ _ Hyi); by eexists].
  destruct (OM_RelativeHumidity h !! i) as [z|] eqn:Hzi;
    [rewrite (index_Some _ _ _ Hzi), bind_ret_l | rewrite (index_None _ _ Hzi); by eexists].
  apply lookup_lt_Some in Hxi, Hyi, Hzi.
  apply IH; lia.
Qed.

End Weather.

Section WeatherClaims.

Variable w : World.

Lemma fetchWeather_zips cityName lat lon t weatherResponse :
  forecast_answers w cityName lat lon t weatherResponse →
  let h := OM_Hourly weatherResponse in
  (length (OM_Time h) ≤ length (OM_Temperature h))%nat →
  (length (OM_Time h) ≤ length (OM_WindSpeed h))%nat →
  (length (OM_Time h) ≤ length (OM_RelativeHumidity h))%nat →
  ∃ hourly,
    fetchWeatherFromOpenMeteo w cityName
    = (Ok {| Weather_Latitude := lat; Weather_Longitude := lon; Weather_Hourly := hourly |},
       t ++ [openMeteoRequest lat lon]) ∧
    length hourly = length (OM_Time h) ∧
    index_aligned h hourly.
Proof.
  intros [Hgeo (resp & Hsent & Hstatus & Hdecoded)] h Hx Hy Hz.
  destruct (hourly_loop_spec h (length (OM_Time h)) 0 []) as (hourly & Hloop & Hlen & Hout);
    [lia..|].
  exists hourly. split; [|split; [done|]].
  - unfold fetchWeatherFromOpenMeteo. rewrite Hgeo. cbn [on_error].
    unfold mbind, M_bind, bind, send. rewrite Hsent.
    rewrite decide_False by (rewrite Hstatus; intros Hne; by apply Hne).
    unfold decode. rewrite Hdecoded. cbn.
    fold h. by rewrite Hloop.
  - intros i Hi. rewrite Hlen in Hi. exact (Hout i Hi).
Qed.

(** When the forecast answers and one of the three arrays is shorter than the
    time array, the adapter panics. *)
Lemma fetchWeather_panics_on_short_array cityName lat lon t weatherResponse :
  forecast_answers w cityName lat lon t weatherResponse →
  let h := OM_Hourly weatherResponse in
  (length (OM_Temperature h) < length (OM_Time h)
   ∨ length (OM_WindSpeed h) < length (OM_Time h)
   ∨ length (OM_RelativeHumidity h) < length (OM_Time h))%nat →
  ∃ p, result (fetchWeatherFromOpenMeteo w cityName) = Panic p.
Proof.
  intros [Hgeo (resp & Hsent & Hstatus & Hdecoded)] h Hshort.
  destruct (hourly_loop_short h (length (OM_Time h)) 0 []) as [p Hloop]; [lia..|done|].
  exists p.
  unfold fetchWeatherFromOpenMeteo. rewrite Hgeo. cbn [on_error].
  unfold mbind, M_bind, bind, send. rewrite Hsent.
  rewrite decide_False by (rewrite Hstatus; intros Hne; by apply Hne).
  unfold decode. rewrite Hdecoded. cbn.
  fold h. by rewrite Hloop.
Qed.

(** C4. When the four arrays of the forecast all have length [N], the adapter
    returns a WeatherData whose hourly sequence has exactly [N] entries, entry
    [i] made of the [i]-th element of each array. *)
Theorem weather_zip_equal_lengths cityName lat lon t weatherResponse N :
  forecast_answers w cityName lat lon t weatherResponse →
  length (OM_Time (OM_Hourly weatherResponse)) = N →
  length (OM_Temperature (OM_Hourly weatherResponse)) = N →
  length (OM_WindSpeed (OM_Hourly weatherResponse)) = N →
  length (OM_RelativeHumidity (OM_Hourly weatherResponse)) = N →
  ∃ hourly,
    result (fetchWeatherFromOpenMeteo w cityName)
    = Ok {| Weather_Latitude := lat; Weather_Longitude := lon; Weather_Hourly := hourly |} ∧
    length hourly = N ∧
    index_aligned (OM_Hourly weatherResponse) hourly.
Proof.
  intros Hanswers Ht Hx Hy Hz.
  destruct (fetchWeather_zips cityName lat lon t weatherResponse Hanswers)
    as (hourly & Hfetch & Hlen & Haligned); [lia..|].
  exists hourly. rewrite Hfetch. split; [done|]. split; [lia|done].
Qed.

(** C9. The zip ranges over the time array only: when the other three arrays
    are each at least as long, no index is out of range (the adapter returns
    and does not panic), the hourly sequence has exactly [len(time)] entries,
    index-aligned, and whatever the other arrays hold beyond that length
    appears nowhere in it. *)
Theorem weather_zip_ranges_over_time cityName lat lon t weatherResponse :
  forecast_answers w cityName lat lon t weatherResponse →
  (length (OM_Time (OM_Hourly weatherResponse))
     ≤ length (OM_Temperature (OM_Hourly weatherResponse)))%nat →
  (length (OM_Time (OM_Hourly weatherResponse))
     ≤ length (OM_WindSpeed (OM_Hourly weatherResponse)))%nat →
  (length (OM_Time (OM_Hourly weatherResponse))
     ≤ length (OM_RelativeHumidity (OM_Hourly weatherResponse)))%nat →
  ∃ hourly,
    fetchWeatherFromOpenMeteo w cityName
    = (Ok {| Weather_Latitude := lat; Weather_Longitude := lon; Weather_Hourly := hourly |},
       t ++ [openMeteoRequest lat lon]) ∧
    length hourly = length (OM_Time (OM_Hourly weatherResponse)) ∧
    index_aligned (OM_Hourly weatherResponse) hourly ∧
    ∀ i, (length (OM_Time (OM_Hourly weatherResponse)) ≤ i)%nat → hourly !! i = None.
Proof.
  intros Hanswers Hx Hy Hz.
  destruct (fetchWeather_zips cityName lat lon t weatherResponse Hanswers)
    as (hourly & Hfetch & Hlen & Haligned); [done..|].
  exists hourly. repeat split; [done..|].
  intros i Hi. apply lookup_ge_None. lia.
Qed.

End WeatherClaims.

Section WeatherWitnesses.

Lemma forecast_answers_london weatherResponse :
  forecast_answers (with_forecast weatherResponse) "London" 51.5%float (-0.125)%float
    [nominatimRequest "London"] weatherResponse.
Proof.
  split; [reflexivity|]. eexists. split; [reflexivity|]. split; reflexivity.
Defined.

Lemma weather_zip_equal_lengths_witness :
  ∃ hourly,
    result (fetchWeatherFromOpenMeteo (with_forecast two_hours) "London")
    = Ok {| Weather_Latitude := 51.5%float; Weather_Longitude := (-0.125)%float;
            Weather_Hourly := hourly |} ∧
    length hourly = 2%nat ∧
    index_aligned (OM_Hourly two_hours) hourly.
Proof.
  apply (weather_zip_equal_lengths (with_forecast two_hours) "London" _ _
           [nominatimRequest "London"] two_hours 2);
    [apply forecast_answers_london | reflexivity..].
Defined.

Lemma weather_zip_ranges_over_time_witness :
  ∃ hourly,
    fetchWeatherFromOpenMeteo (with_forecast surplus_values) "London"
    = (Ok {| Weather_Latitude := 51.5%float; Weather_Longitude := (-0.125)%float;
             Weather_Hourly := hourly |},
       [nominatimRequest "London"] ++ [openMeteoRequest 51.5%float (-0.125)%float]) ∧
    length hourly = length (OM_Time (OM_Hourly surplus_values)) ∧
    index_aligned (OM_Hourly surplus_values) hourly ∧
    ∀ i, (length (OM_Time (OM_Hourly surplus_values)) ≤ i)%nat → hourly !! i = None.
Proof.
  apply (weather_zip_ranges_over_time (with_forecast surplus_values) "London" _ _
           [nominatimRequest "London"] surplus_values);
    [apply forecast_answers_london | cbn; lia..].
Defined.

(** The other way round: an array shorter than the time array makes the zip
    panic at the first index it lacks. *)
Example weather_zip_panics_on_short_array :
  result (fetchWeatherFromOpenMeteo (with_forecast time_only) "London")
  = Panic (Go.IndexOutOfRange 0 0).
Proof. reflexivity. Qed.

Example weather_zip_drops_surplus :
  result (fetchWeatherFromOpenMeteo (with_forecast surplus_values) "London")
  = Ok {| Weather_Latitude := 51.5%float; Weather_Longitude := (-0.125)%float;
          Weather_Hourly := [ {| Hourly_Time := "2024-01-01T00:00";
                                 Hourly_Temperature := 10.5%float;
                                 Hourly_WindSpeed := 5.25%float;
                                 Hourly_RelativeHumidity := 75 |} ] |}.
Proof. reflexivity. Qed.

End WeatherWitnesses.

(** ** [geocodeCity] *)
Section Geocoding.

Variable w : World.

Lemma geocodeCity_transport_failure cityName country msg :
  Nominatim w (nominatimRequest (geocodeQuery cityName country)) = TransportFailed msg →
  geocodeCity w cityName country
  = (Err (TransportError msg), [nominatimRequest (geocodeQuery cityName country)]).
Proof. intros Hsent. unfold geocodeCity, mbind, M_bind, bind, send. by rewrite Hsent. Qed.

Lemma geocodeCity_undecodable cityName country resp msg :
  Nominatim w (nominatimRequest (geocodeQuery cityName country)) = Responded resp →
  Decoded resp = inl msg →
  geocodeCity w cityName country
  = (Err (DecodeError msg), [nominatimRequest (geocodeQuery cityName country)]).
Proof.
  intros Hsent Hdecoded.
  unfold geocodeCity, mbind, M_bind, bind, send, decode. by rewrite Hsent, Hdecoded.
Qed.

(** Zero matches: the location is not found, whatever the status code. *)
Lemma geocodeCity_no_match cityName country resp :
  Nominatim w (nominatimRequest (geocodeQuery cityName country)) = Responded resp →
  Decoded resp = inr [] →
  geocodeCity w cityName country
  = (Err (LocationNotFound (geocodeQuery cityName country)),
     [nominatimRequest (geocodeQuery cityName country)]).
Proof.
  intros Hsent Hdecoded.
  unfold geocodeCity, mbind, M_bind, bind, send, decode. by rewrite Hsent, Hdecoded.
Qed.

(** A first match is returned, whatever the status code: [resp.StatusCode] is
    not read. *)
Lemma geocodeCity_first_match cityName country resp r0 rest :
  Nominatim w (nominatimRequest (geocodeQuery cityName country)) = Responded resp →
  Decoded resp = inr (r0 :: rest) →
  geocodeCity w cityName country
  = (Ok (Nom_Lat r0, Nom_Lon r0), [nominatimRequest (geocodeQuery cityName country)]).
Proof.
  intros Hsent Hdecoded.
  unfold geocodeCity, mbind, M_bind, bind, send, decode. by rewrite Hsent, Hdecoded.
Qed.

(** The outcomes of [geocodeCity], by what the geocoder does. *)
Lemma geocodeCity_cases cityName country :
  let query := geocodeQuery cityName country in
  match Nominatim w (nominatimRequest query) with
  | TransportFailed msg => result (geocodeCity w cityName country) = Err (TransportError msg)
  | Responded resp =>
      match Decoded resp with
      | inl msg => result (geocodeCity w cityName country) = Err (DecodeError msg)
      | inr [] => result (geocodeCity w cityName country) = Err (LocationNotFound query)
      | inr (r0 :: _) => result (geocodeCity w cityName country) = Ok (Nom_Lat r0, Nom_Lon r0)
      end
  end.
Proof.
  intros query.
  destruct (Nominatim w (nominatimRequest query)) as [msg|resp] eqn:Hsent.
  - by rewrite (geocodeCity_transport_failure _ _ _ Hsent).
  - destruct (Decoded resp) as [msg|[|r0 rest]] eqn:Hdecoded.
    + by rewrite (geocodeCity_undecodable _ _ _ _ Hsent Hdecoded).
    + by rewrite (geocodeCity_no_match _ _ _ Hsent Hdecoded).
    + by rewrite (geocodeCity_first_match _ _ _ _ _ Hsent Hdecoded).
Qed.

Lemma geocodeCity_never_panics cityName country p :
  result (geocodeCity w cityName country) ≠ Panic p.
Proof.
  pose proof (geocodeCity_cases cityName country) as Hcases. cbn zeta in Hcases.
  destruct (Nominatim w _) as [msg|resp]; [by rewrite Hcases|].
  destruct (Decoded resp) as [msg|[|r0 rest]]; by rewrite Hcases.
Qed.

End Geocoding.

(** C2, at the failing input: the geocoder answers with status 500 and a body
    that decodes to one match; [geocodeCity] returns that coordinate and no
    error. *)
Theorem geocodeCity_status_500_returns_coordinate :
  (∃ resp, Nominatim geocoder_500 (nominatimRequest "London") = Responded resp
           ∧ StatusCode resp = 500)
  ∧ geocodeCity geocoder_500 "London" ""
    = (Ok (51.5%float, (-0.125)%float), [nominatimRequest "London"]).
Proof.
  split.
  - eexists. split; reflexivity.
  - apply (geocodeCity_first_match geocoder_500 "London" ""
             {| StatusCode := 500; Body := "(json)"; Decoded := inr [london] |} london []);
      reflexivity.
Qed.

(** ** [fetchRatesFromExchangeAPI] *)
Section Rates.

Variable w : World.

(** C10. On a 200 whose body decodes the adapter succeeds; the [result] field
    of the body plays no part, and the base currency returned is the body's
    [base_code], not the argument. *)
Theorem rates_taken_from_body baseCurrency ratesResponse :
  answers (ExchangeRateAPI w) (exchangeRateRequest baseCurrency) ratesResponse →
  fetchRatesFromExchangeAPI w baseCurrency
  = (Ok {| Rates_BaseCurrency := ER_BaseCode ratesResponse;
           Rates_Rates := ER_ConversionRates ratesResponse;
           Rates_Timestamp := Unix (ER_TimeLastUpdateUnix ratesResponse) 0 |},
     [exchangeRateRequest baseCurrency]).
Proof.
  intros (resp & Hsent & Hstatus & Hdecoded).
  unfold fetchRatesFromExchangeAPI, mbind, M_bind, bind, send, decode.
  rewrite Hsent. rewrite decide_False by (rewrite Hstatus; intros Hne; by apply Hne).
  by rewrite Hdecoded.
Qed.

Lemma fetchRates_never_panics baseCurrency p :
  result (fetchRatesFromExchangeAPI w baseCurrency) ≠ Panic p.
Proof.
  unfold fetchRatesFromExchangeAPI, mbind, M_bind, bind, send, decode.
  destruct (ExchangeRateAPI w _) as [msg|resp]; [done|].
  destruct (decide (StatusCode resp ≠ 200)); [done|].
  by destruct (Decoded resp).
Qed.

End Rates.

Lemma rates_taken_from_body_witness :
  fetchRatesFromExchangeAPI rates_report_error "USD"
  = (Ok {| Rates_BaseCurrency := "EUR";
           Rates_Rates := {[ "GBP" := 0.75%float ]};
           Rates_Timestamp := Unix 1609459200 0 |},
     [exchangeRateRequest "USD"]).
Proof.
  apply (rates_taken_from_body rates_report_error "USD" rates_unsupported).
  eexists. split; [reflexivity|]. split; reflexivity.
Defined.

(** ** [GetLandmarks] and [GetWeather] without a city *)
Section CityRequired.

Lemma Query_no_parameter c key :
  QueryValues c !! key = None ∨ (∃ rest, QueryValues c !! key = Some ("" :: rest)) →
  Query c key = "".
Proof. unfold Query. by intros [->|[rest ->]]. Qed.

(** C7. Without a city in the query string (or with an empty one) both
    handlers answer 400 with the one-field body, and send no request. *)
Theorem city_parameter_required w c :
  Query c "city" = "" →
  GetLandmarks w c
  = (Ok {| Status := 400; JSON := H {[ "error" := AString "city parameter is required" ]} |}, [])
  ∧ GetWeather w c
  = (Ok {| Status := 400; JSON := H {[ "error" := AString "city parameter is required" ]} |}, []).
Proof.
  intros Hcity. unfold GetLandmarks, GetWeather. rewrite Hcity.
  by rewrite !decide_True.
Qed.

Lemma city_parameter_required_witness :
  GetLandmarks rates_down country_only
  = (Ok {| Status := 400; JSON := H {[ "error" := AString "city parameter is required" ]} |}, [])
  ∧ GetWeather rates_down country_only
  = (Ok {| Status := 400; JSON := H {[ "error" := AString "city parameter is required" ]} |}, []).
Proof.
  apply (city_parameter_required rates_down country_only).
  apply Query_no_parameter. left. reflexivity.
Defined.

End CityRequired.

(** ** [fetchLandmarksFromFoursquare] *)
Section Landmarks.

Lemma landmarks_loop_map items : ∀ landmarks,
  landmarks_loop landmarks items = landmarks ++ map landmark_of items.
Proof.
  induction items as [|item items IH]; intros landmarks; cbn [landmarks_loop map].
  - by rewrite app_nil_r.
  - rewrite IH, <- app_assoc. reflexivity.
Qed.

Variable w : World.

Lemma fetchLandmarks_first_group cityName country fsResponse :
  places_search_answers w cityName country fsResponse →
  ∃ t, fetchLandmarksFromFoursquare w cityName country
       = (Ok (map landmark_of (first_group_items fsResponse)), t).
Proof.
  intros (lat & lon & t & clientID & clientSecret & Hgeo & Hkey & Hparse
          & resp & Hsent & Hstatus & Hdecoded).
  unfold fetchLandmarksFromFoursquare. rewrite Hgeo. cbn [on_error].
  unfold mbind, M_bind, bind.
  rewrite decide_False by done. rewrite Hparse. cbn [mret M_ret ret].
  unfold send. rewrite Hsent.
  rewrite decide_False by (rewrite Hstatus; intros Hne; by apply Hne).
  unfold decode. rewrite Hdecoded. cbn [ret].
  unfold first_group_items.
  destruct (Body_Groups (Fsq_Response fsResponse)) as [|group0 groups]; cbn.
  - eauto.
  - rewrite landmarks_loop_map. eauto.
Qed.

(** C6, amended. On a successful places search every result item of the
    first result group becomes one Landmark, its fields taken from the item's
    venue, in order; a response with zero result groups gives the empty
    sequence and no error. *)
Theorem landmarks_from_first_group cityName country fsResponse :
  places_search_answers w cityName country fsResponse →
  result (fetchLandmarksFromFoursquare w cityName country)
  = Ok (map landmark_of (first_group_items fsResponse))
  ∧ (Body_Groups (Fsq_Response fsResponse) = [] →
     result (fetchLandmarksFromFoursquare w cityName country) = Ok []).
Proof.
  intros Hanswers.
  destruct (fetchLandmarks_first_group cityName country fsResponse Hanswers) as [t Hfetch].
  rewrite Hfetch. split; [done|].
  unfold first_group_items. by intros ->.
Qed.

Lemma fetchLandmarks_never_panics cityName country p :
  result (fetchLandmarksFromFoursquare w cityName country) ≠ Panic p.
Proof.
  unfold fetchLandmarksFromFoursquare.
  pose proof (geocodeCity_never_panics w cityName country) as Hgeo.
  destruct (geocodeCity w cityName country) as [[[lat lon]|e|p'] t]; cbn [on_error];
    [|done|by destruct (Hgeo p')].
  unfold mbind, M_bind, bind.
  destruct (decide (Getenv w "FOURSQUARE_API_KEY" = "")); [done|].
  rewrite parseV2APIKey_refines.
  destruct (match split_first_plus _ with Some parts => parts | None => _ end)
    as [clientID clientSecret].
  cbn [mret M_ret ret]. unfold send.
  destruct (Foursquare w _) as [msg|resp]; [done|].
  destruct (decide (StatusCode resp ≠ 200)); [done|].
  unfold decode. destruct (Decoded resp) as [msg|fsResponse]; [done|]. cbn [ret].
  by destruct (Body_Groups (Fsq_Response fsResponse)).
Qed.

End Landmarks.

Section LandmarksExamples.

Lemma places_search_answers_london fsResponse :
  places_search_answers (with_sights fsResponse) "London" "England" fsResponse.
Proof.
  exists 51.5%float, (-0.125)%float, [nominatimRequest "London, England"],
         "CLIENT_ID", "CLIENT_SECRET".
  split; [reflexivity|]. split; [done|]. split; [reflexivity|].
  eexists. split; [reflexivity|]. split; reflexivity.
Defined.

Lemma landmarks_from_first_group_witness :
  result (fetchLandmarksFromFoursquare (with_sights (sights [[big_ben]])) "London" "England")
  = Ok (map landmark_of (first_group_items (sights [[big_ben]])))
  ∧ (Body_Groups (Fsq_Response (sights [[big_ben]])) = [] →
     result (fetchLandmarksFromFoursquare (with_sights (sights [[big_ben]])) "London" "England")
     = Ok []).
Proof.
  apply (landmarks_from_first_group (with_sights (sights [[big_ben]])) "London" "England").
  apply places_search_answers_london.
Defined.

(** C6 as stated fails on a response with two result groups: the item of the
    second group becomes no Landmark. *)
Lemma second_group_is_dropped :
  result (fetchLandmarksFromFoursquare
            (with_sights (sights [[big_ben]; [tower_bridge]])) "London" "England")
  = Ok [landmark_of big_ben]
  ∧ result_items (sights [[big_ben]; [tower_bridge]]) = [big_ben; tower_bridge]
  ∧ ¬ every_item_becomes_a_landmark
        (with_sights (sights [[big_ben]; [tower_bridge]])) "London" "England".
Proof.
  split; [reflexivity|]. split; [reflexivity|].
  intros Hclaim.
  specialize (Hclaim _ (places_search_answers_london (sights [[big_ben]; [tower_bridge]]))).
  discriminate Hclaim.
Qed.

Example zero_groups_is_no_error :
  fetchLandmarksFromFoursquare (with_sights (sights [])) "London" "England"
  = (Ok [], [nominatimRequest "London, England";
             foursquareRequest 51.5%float (-0.125)%float "CLIENT_ID" "CLIENT_SECRET"]).
Proof. reflexivity. Qed.

End LandmarksExamples.

(** ** [fetchCitiesFromRestCountries] *)
Section Cities.

(** Ranging over a map that has entries assigns one of its keys. *)
Lemma first_key_declared {V} seed (m : gmap string V) :
  m ≠ ∅ → is_Some (m !! first_key seed (Some m)).
Proof.
  intros Hne. unfold first_key.
  assert (0 < size m)%nat as Hsize.
  { destruct (decide (size m = 0%nat)) as [Hz|]; [|lia].
    by apply map_size_empty_inv in Hz. }
  destruct (lookup_lt_is_Some_2 (map_to_list m) (seed mod size m)) as [[code v] Hlookup].
  { rewrite length_map_to_list. by apply Nat.mod_upper_bound, Nat.neq_0_lt_0. }
  rewrite Hlookup. exists v.
  apply elem_of_map_to_list. eapply list_elem_of_lookup_2, Hlookup.
Qed.

(** Every key can be the one assigned. *)
Lemma first_key_any {V} (m : gmap string V) code :
  is_Some (m !! code) → ∃ seed, first_key seed (Some m) = code.
Proof.
  intros [v Hv]. apply elem_of_map_to_list in Hv.
  apply list_elem_of_lookup_1 in Hv as [i Hi].
  exists i. unfold first_key.
  rewrite Nat.mod_small; [by rewrite Hi|].
  rewrite <- length_map_to_list. by eapply lookup_lt_Some.
Qed.

Variable w : World.

Lemma cities_loop_spec countries : ∀ k cities id,
  Forall (λ country, ¬ capital_without_currency country) countries →
  ∃ emitted,
    cities_loop w k cities id countries = mret (cities ++ emitted) ∧
    Forall2 entry_of (List.filter has_both countries) emitted ∧
    (Forall lists_no_empty_string countries → Forall named_and_priced emitted).
Proof.
  induction countries as [|country countries IH]; intros k cities id Hslip.
  - exists []. rewrite app_nil_r. repeat split; constructor.
  - apply Forall_cons in Hslip as [Hcountry Hslip].
    assert (Hskip : has_both country = false → ∃ emitted,
              cities_loop w (S k) cities id countries = mret (cities ++ emitted) ∧
              Forall2 entry_of (List.filter has_both (country :: countries)) emitted ∧
              (Forall lists_no_empty_string (country :: countries) →
               Forall named_and_priced emitted)).
    { intros Hdrop. cbn [List.filter]. rewrite Hdrop.
      destruct (IH (S k) cities id Hslip) as (emitted & Hloop & Hentries & Hnames).
      exists emitted. split; [done|]. split; [done|].
      intros Hall. apply Forall_cons in Hall as [_ Hall]. auto. }
    cbn [cities_loop].
    destruct (RC_Capital country) as [|capital0 capitals] eqn:Hcapital.
    { apply Hskip. unfold has_both, has_capital. by rewrite Hcapital. }
    destruct (RC_Currencies country) as [m|] eqn:Hcurrencies.
    2:{ cbn [length Nat.eqb is_nil orb]. apply Hskip.
        unfold has_both, has_currency_entries. rewrite Hcurrencies. apply andb_false_r. }
    clear Hskip. cbn [length Nat.eqb is_nil orb].
    assert (m ≠ ∅) as Hm.
    { intros ->. apply Hcountry. split; [by rewrite Hcapital | done]. }
    assert (has_both country = true) as Hkeep.
    { unfold has_both, has_capital, has_currency_entries. rewrite Hcapital, Hcurrencies.
      cbn [length Nat.eqb negb andb]. apply negb_true_iff, Nat.eqb_neq.
      intros Hz. by apply map_size_empty_inv in Hz. }
    cbn [List.filter]. rewrite Hkeep.
    rewrite (index_Some _ _ capital0) by done. rewrite bind_ret_l.
    set (city := {| City_ID := id |}).
    destruct (IH (S k) (cities ++ [city]) (Go.int_wrap (id + 1)) Hslip)
      as (emitted & Hloop & Hentries & Hnames).
    exists (city :: emitted). rewrite Hloop, <- app_assoc. split; [done|]. split.
    + constructor; [|done].
      unfold entry_of. rewrite Hcapital, Hcurrencies.
      split; [done|]. split; [done|]. split; [done|].
      exists m. split; [done|]. by apply first_key_declared.
    + intros Hall. apply Forall_cons in Hall as [[Hname Hcodes] Hall].
      constructor; [|auto].
      split; cbn [City_Name City_Currency city].
      * intros Hblank. apply Hname. rewrite Hcapital. cbn. by rewrite Hblank.
      * intros Hblank.
        destruct (first_key_declared (MapOrder w k) m Hm) as [v Hv].
        rewrite Hblank, (Hcodes m Hcurrencies) in Hv. done.
Qed.

(** C3, amended. The directory keeps no country with an empty capital list
    or without currency entries, and keeps exactly one entry, in order, for
    each country that has both: its first capital as name and one of its
    declared currency codes as currency, hence both non-empty when no such
    upstream string is empty.  (A country with a capital and a currency
    object without entries is left aside.) *)
Theorem directory_keeps_countries_with_both countries :
  answers (RestCountries w) restCountriesRequest countries →
  Forall (λ country, ¬ capital_without_currency country) countries →
  ∃ cities,
    fetchCitiesFromRestCountries w = (Ok cities, [restCountriesRequest]) ∧
    Forall2 entry_of (List.filter has_both countries) cities ∧
    (Forall lists_no_empty_string countries → Forall named_and_priced cities).
Proof.
  intros (resp & Hsent & Hstatus & Hdecoded) Hslip.
  destruct (cities_loop_spec countries 0 [] 1 Hslip) as (cities & Hloop & Hentries & Hnames).
  exists cities. split; [|done].
  unfold fetchCitiesFromRestCountries, mbind, M_bind, bind, send, decode.
  rewrite Hsent. rewrite decide_False by (rewrite Hstatus; intros Hne; by apply Hne).
  rewrite Hdecoded. cbn [ret]. by rewrite Hloop.
Qed.

End Cities.

Section CitiesExamples.

Lemma directory_answers_with countries :
  answers (RestCountries (with_directory countries)) restCountriesRequest countries.
Proof. eexists. split; [reflexivity|]. split; reflexivity. Defined.

Lemma directory_keeps_countries_with_both_witness :
  ∃ cities,
    fetchCitiesFromRestCountries (with_directory [united_kingdom; antarctica; unpriced])
    = (Ok cities, [restCountriesRequest]) ∧
    Forall2 entry_of (List.filter has_both [united_kingdom; antarctica; unpriced]) cities ∧
    (Forall lists_no_empty_string [united_kingdom; antarctica; unpriced] →
     Forall named_and_priced cities).
Proof.
  apply (directory_keeps_countries_with_both
           (with_directory [united_kingdom; antarctica; unpriced])
           [united_kingdom; antarctica; unpriced]).
  - apply directory_answers_with.
  - repeat apply Forall_cons_2; [..|apply Forall_nil_2]; intros [Hcapital Hcurrencies].
    + assert (Hpound : pound !! "GBP" = (∅ : gmap string CurrencyInfo) !! "GBP").
      { cbn in Hcurrencies. f_equal. congruence. }
      discriminate Hpound.
    + by apply Hcapital.
    + discriminate Hcurrencies.
Defined.

Example directory_of_three :
  result (fetchCitiesFromRestCountries (with_directory [united_kingdom; antarctica; unpriced]))
  = Ok [ {| City_ID := 1; City_Name := "London"; City_ThreeLetterCode := "GBR";
            City_Currency := "GBP"; City_Country := "United Kingdom" |} ].
Proof. reflexivity. Qed.

(** C3 as stated fails on a country whose capital list holds an empty
    string: it is kept, and its City has an empty name. *)
Lemma blank_capital_is_emitted :
  result (fetchCitiesFromRestCountries (with_directory [blank_capital]))
  = Ok [ {| City_ID := 1; City_Name := ""; City_ThreeLetterCode := "BLK";
            City_Currency := "GBP"; City_Country := "Blankland" |} ]
  ∧ ¬ directory_is_filtered (with_directory [blank_capital]).
Proof.
  split; [reflexivity|].
  intros Hclaim.
  destruct (Hclaim _ (directory_answers_with [blank_capital]))
    as (cities & Hfetch & _ & Hnamed).
  injection Hfetch as <-.
  apply Forall_cons in Hnamed as [[Hname _] _]. by apply Hname.
Qed.

(** The case left aside: a country with a capital and a currency object that
    has no entries passes the nil test and is emitted with an empty currency. *)
Example empty_currency_object_is_emitted :
  result (fetchCitiesFromRestCountries (with_directory [empty_currencies]))
  = Ok [ {| City_ID := 1; City_Name := "Swapton"; City_ThreeLetterCode := "BRT";
            City_Currency := ""; City_Country := "Barterland" |} ].
Proof. reflexivity. Qed.

End CitiesExamples.

(** ** [GetCityData]: the bundle, under every schedule *)
(** ** [c.JSON]: what is written of a body *)
Section Encoding.

Variable w : World.






End Encoding.

(** ** [GetCityData]: the three goroutines and the response *)
Section Bundle.

Variable w : World.
Variable c : Context.

Local Abbreviation step := (GetCityData_step w c).

(** What each goroutine is about to send, by what its fetch came to. *)
Lemma landmarksTask_result cityName country :
  result (landmarksTask w cityName country)
  = match result (fetchLandmarksFromFoursquare w cityName country) with
    | Ok landmarks => Ok {| lr_landmarks := landmarks; lr_err := None |}
    | Err err => Ok {| lr_landmarks := []; lr_err := Some err |}
    | Panic p => Panic p
    end.
Proof.
  unfold landmarksTask.
  by destruct (fetchLandmarksFromFoursquare w cityName country) as [[?|?|?] ?].
Qed.

Lemma weatherTask_result cityName :
  result (weatherTask w cityName)
  = match result (fetchWeatherFromOpenMeteo w cityName) with
    | Ok weather => Ok {| wr_weather := weather; wr_err := None |}
    | Err err => Ok {| wr_weather := WeatherData_zero; wr_err := Some err |}
    | Panic p => Panic p
    end.
Proof.
  unfold weatherTask.
  by destruct (fetchWeatherFromOpenMeteo w cityName) as [[?|?|?] ?].
Qed.

Lemma ratesTask_result :
  result (ratesTask w)
  = match result (fetchRatesFromExchangeAPI w "USD") with
    | Ok rates => Ok {| rr_rates := rates; rr_err := None |}
    | Err err => Ok {| rr_rates := RatesData_zero; rr_err := Some err |}
    | Panic p => Panic p
    end.
Proof.
  unfold ratesTask.
  by destruct (fetchRatesFromExchangeAPI w "USD") as [[?|?|?] ?].
Qed.



Lemma crashed_is_final p sent : nf step (Crashed p sent).
Proof. intros [s' Hstep]. inversion Hstep. Qed.

Lemma written_is_final resp sent : nf step (Serving Exited Exited Exited (Written resp) sent).
Proof. intros [s' Hstep]. inversion Hstep. Qed.

(** A fetching goroutine can send what is left of its requests, one by one. *)
Lemma landmarks_requests_run gw gr h k sent n :
  (n + k)%nat = length (trace (landmarksTask w (Param c "name") (Param c "country"))) →
  rtc step (Serving (Fetching n) gw gr h sent)
           (Serving (Fetching (n + k)) gw gr h
              (sent ++ drop n (trace (landmarksTask w (Param c "name") (Param c "country"))))).
Proof.
  revert sent n. induction k as [|k IH]; intros sent n Hlen.
  - rewrite Nat.add_0_r in *. rewrite drop_ge by lia. by rewrite app_nil_r.
  - destruct (lookup_lt_is_Some_2
                (trace (landmarksTask w (Param c "name") (Param c "country"))) n)
      as [req Hreq]; [lia|].
    eapply rtc_l; [by apply landmarks_request|].
    rewrite (drop_S _ _ _ Hreq), (cons_middle req sent (drop _ _)), app_assoc.
    replace (n + S k)%nat with (S n + k)%nat by lia. apply IH. lia.
Qed.

Lemma weather_requests_run gl gr h k sent n :
  (n + k)%nat = length (trace (weatherTask w (Param c "name"))) →
  rtc step (Serving gl (Fetching n) gr h sent)
           (Serving gl (Fetching (n + k)) gr h
              (sent ++ drop n (trace (weatherTask w (Param c "name"))))).
Proof.
  revert sent n. induction k as [|k IH]; intros sent n Hlen.
  - rewrite Nat.add_0_r in *. rewrite drop_ge by lia. by rewrite app_nil_r.
  - destruct (lookup_lt_is_Some_2 (trace (weatherTask w (Param c "name"))) n)
      as [req Hreq]; [lia|].
    eapply rtc_l; [by apply weather_request|].
    rewrite (drop_S _ _ _ Hreq), (cons_middle req sent (drop _ _)), app_assoc.
    replace (n + S k)%nat with (S n + k)%nat by lia. apply IH. lia.
Qed.

Lemma rates_requests_run gl gw h k sent n :
  (n + k)%nat = length (trace (ratesTask w)) →
  rtc step (Serving gl gw (Fetching n) h sent)
           (Serving gl gw (Fetching (n + k)) h (sent ++ drop n (trace (ratesTask w)))).
Proof.
  revert sent n. induction k as [|k IH]; intros sent n Hlen.
  - rewrite Nat.add_0_r in *. rewrite drop_ge by lia. by rewrite app_nil_r.
  - destruct (lookup_lt_is_Some_2 (trace (ratesTask w)) n) as [req Hreq]; [lia|].
    eapply rtc_l; [by apply rates_request|].
    rewrite (drop_S _ _ _ Hreq), (cons_middle req sent (drop _ _)), app_assoc.
    replace (n + S k)%nat with (S n + k)%nat by lia. apply IH. lia.
Qed.

Section Returning.

(** The three tasks return. *)
Variables (rl : landmarksResult) (rw : weatherResult) (rr : ratesResult).
Variables (tl tw tr : list Request).
Hypothesis Hl : landmarksTask w (Param c "name") (Param c "country") = (Ok rl, tl).
Hypothesis Hw : weatherTask w (Param c "name") = (Ok rw, tw).
Hypothesis Hr : ratesTask w = (Ok rr, tr).

Lemma collecting_start : collecting w c rl rw rr tl tw tr GetCityData_start.
Proof.
  cbn. unfold running.
  repeat split; try done; left; exists 0%nat; (split; [done|lia]).
Qed.

Lemma collecting_step s s' :
  collecting w c rl rw rr tl tw tr s → step s s' → collecting w c rl rw rr tl tw tr s'.
Proof.
  intros Hinv Hstep.
  destruct Hstep as [gw gr h sent n req Hreq | gw gr h sent r t Htask | gw gr h sent p t Htask
                    | gl gr h sent n req Hreq | gl gr h sent r t Htask | gl gr h sent p t Htask
                    | gl gw h sent n req Hreq | gl gw h sent r t Htask | gl gw h sent p t Htask
                    | gw gr sent r | gl gr sent lr r | gl gw sent lr xr r];
    cbn in Hinv |- *;
    try (rewrite Hl in Htask); try (rewrite Hw in Htask); try (rewrite Hr in Htask);
    try (rewrite Hl in Hreq); try (rewrite Hw in Hreq); try (rewrite Hr in Hreq);
    try discriminate Htask; try (injection Htask as <- <-);
    try (apply lookup_lt_Some in Hreq; cbn in Hreq);
    destruct Hinv as (Hgl & Hgw & Hgr & Hh); unfold running in *.
  - split; [left; exists (S n); split; [done|lia]|]. split; [done|]. split; [done|].
    destruct h; intuition discriminate.
  - split; [auto|]. split; [done|]. split; [done|]. destruct h; intuition discriminate.
  - split; [done|]. split; [left; exists (S n); split; [done|lia]|]. split; [done|].
    destruct h; intuition discriminate.
  - split; [done|]. split; [auto|]. split; [done|]. destruct h; intuition discriminate.
  - split; [done|]. split; [done|]. split; [left; exists (S n); split; [done|lia]|].
    destruct h; intuition discriminate.
  - split; [done|]. split; [done|]. split; [auto|]. destruct h; intuition discriminate.
  - destruct Hgl as [(? & ? & _)|[[= ->]|?]]; [done| |done]. intuition congruence.
  - destruct Hgw as [(? & ? & _)|[[= ->]|?]]; [done| |done]. intuition congruence.
  - destruct Hgr as [(? & ? & _)|[[= ->]|?]]; [done| |done]. intuition congruence.
Qed.

Lemma collecting_reachable s :
  rtc step GetCityData_start s → collecting w c rl rw rr tl tw tr s.
Proof.
  revert s. apply rtc_ind_r; [apply collecting_start|].
  intros s s' _ Hstep Hinv. by eapply collecting_step.
Qed.

(** A state that can take no step has the response written. *)
Lemma collecting_final s :
  collecting w c rl rw rr tl tw tr s → nf step s →
  written s = Some (buildResponse w (Param c "name") (Param c "country") rl rw rr).
Proof.
  intros Hinv Hnf. destruct s as [gl gw gr h sent|]; [|done].
  destruct Hinv as (Hgl & Hgw & Hgr & Hh).
  destruct h as [|l|l x|resp]; cbn.
  - destruct Hh as (Hnl & _ & _). destruct Hnf.
    destruct Hgl as [(n & -> & Hn) | [-> | ->]]; [| |done].
    + destruct (decide (n = length tl)) as [->|Hlt].
      * eexists. by apply landmarks_fetched.
      * destruct (lookup_lt_is_Some_2 tl n) as [req Hreq]; [lia|].
        eexists. apply landmarks_request. rewrite Hl. exact Hreq.
    + eexists. apply landmarks_received.
  - destruct Hh as (-> & _ & Hnw & _). destruct Hnf.
    destruct Hgw as [(n & -> & Hn) | [-> | ->]]; [| |done].
    + destruct (decide (n = length tw)) as [->|Hlt].
      * eexists. by apply weather_fetched.
      * destruct (lookup_lt_is_Some_2 tw n) as [req Hreq]; [lia|].
        eexists. apply weather_request. rewrite Hw. exact Hreq.
    + eexists. apply weather_received.
  - destruct Hh as (-> & -> & _ & _ & Hnr). destruct Hnf.
    destruct Hgr as [(n & -> & Hn) | [-> | ->]]; [| |done].
    + destruct (decide (n = length tr)) as [->|Hlt].
      * eexists. by apply rates_fetched.
      * destruct (lookup_lt_is_Some_2 tr n) as [req Hreq]; [lia|].
        eexists. apply rates_request. rewrite Hr. exact Hreq.
    + eexists. apply rates_received.
  - by destruct Hh as (-> & _).
Qed.

(** One schedule that runs to the end: the landmarks fetch to its result,
    then the weather fetch, then the rates fetch, then the three receives. *)
Lemma GetCityData_one_by_one :
  rtc step GetCityData_start
      (Serving Exited Exited Exited
         (Written (buildResponse w (Param c "name") (Param c "country") rl rw rr))
         (tl ++ tw ++ tr)).
Proof.
  unfold GetCityData_start.
  etrans; [apply (landmarks_requests_run _ _ _ (length tl) [] 0); by rewrite Hl|].
  rewrite Hl. cbn [trace snd drop app Nat.add].
  eapply rtc_l; [by apply landmarks_fetched|].
  etrans; [apply (weather_requests_run _ _ _ (length tw) tl 0); by rewrite Hw|].
  rewrite Hw. cbn [trace snd drop Nat.add].
  eapply rtc_l; [by apply weather_fetched|].
  etrans; [apply (rates_requests_run _ _ _ (length tr) (tl ++ tw) 0); by rewrite Hr|].
  rewrite Hr. cbn [trace snd drop Nat.add]. rewrite <- app_assoc.
  eapply rtc_l; [by apply rates_fetched|].
  eapply rtc_l; [apply landmarks_received|].
  eapply rtc_l; [apply weather_received|].
  apply rtc_once, rates_received.
Qed.


End Returning.


Lemma landmarksTask_returns :
  ∃ rl tl, landmarksTask w (Param c "name") (Param c "country") = (Ok rl, tl).
Proof.
  pose proof (landmarksTask_result (Param c "name") (Param c "country")) as Htask.
  pose proof (fetchLandmarks_never_panics w (Param c "name") (Param c "country")) as Hfetch.
  destruct (landmarksTask w _ _) as [task tl]. unfold result in *. cbn [fst] in *.
  destruct (fetchLandmarksFromFoursquare w _ _) as [[l|e|p] t]; cbn [fst] in *;
    subst; eauto. by destruct (Hfetch p).
Qed.

Lemma ratesTask_returns : ∃ rr tr, ratesTask w = (Ok rr, tr).
Proof.
  pose proof ratesTask_result as Htask.
  pose proof (fetchRates_never_panics w "USD") as Hfetch.
  destruct (ratesTask w) as [task tr]. unfold result in *. cbn [fst] in *.
  destruct (fetchRatesFromExchangeAPI w _) as [[l|e|p] t]; cbn [fst] in *;
    subst; eauto. by destruct (Hfetch p).
Qed.

Lemma weatherTask_returns :
  (∀ p, result (fetchWeatherFromOpenMeteo w (Param c "name")) ≠ Panic p) →
  ∃ rw tw, weatherTask w (Param c "name") = (Ok rw, tw).
Proof.
  intros Hfetch.
  pose proof (weatherTask_result (Param c "name")) as Htask.
  destruct (weatherTask w _) as [task tw]. unfold result in *. cbn [fst] in *.
  destruct (fetchWeatherFromOpenMeteo w _) as [[l|e|p] t]; cbn [fst] in *;
    subst; eauto. by destruct (Hfetch p).
Qed.


End Bundle.

Section BundleExamples.



(** The scenario of the specification: London, England with the rates call
    answered by a 500 and the other two succeeding.  Under every schedule the
    response is a 200 with landmarks, weather and rates_error. *)
Example london_bundle_with_rates_down s :
  rtc (GetCityData_step rates_down london_bundle) GetCityData_start s →
  nf (GetCityData_step rates_down london_bundle) s →
  written s
  = Some {| Status := 200;
            JSON := H (<["rates_error" :=
                           AString "exchange-rate API error: 500 - Internal Server Error"]>
                      (<["weather" :=
                           AWeather {| Weather_Latitude := 51.5%float;
                                       Weather_Longitude := (-0.125)%float;
                                       Weather_Hourly :=
                                         [ {| Hourly_Time := "2024-01-01T00:00";
                                              Hourly_Temperature := 10.5%float;
                                              Hourly_WindSpeed := 5.25%float;
                                              Hourly_RelativeHumidity := 75 |};
                                           {| Hourly_Time := "2024-01-01T01:00";
                                              Hourly_Temperature := 11.25%float;
                                              Hourly_WindSpeed := 6.125%float;
                                              Hourly_RelativeHumidity := 73 |} ] |}]>
                      (<["landmarks" := ALandmarks [landmark_of big_ben]]>
                         {[ "city" := AString "London"; "country" := AString "England" ]}))) |}.
Proof.
  intros Hrun Hnf.
  pose proof (collecting_final rates_down london_bundle _ _ _ _ _ _
                eq_refl eq_refl eq_refl s) as Hfinal.
  rewrite Hfinal; [|by apply (collecting_reachable rates_down london_bundle
                                _ _ _ _ _ _ eq_refl eq_refl eq_refl)|done].
  reflexivity.
Qed.

End BundleExamples.

(** ** encoding/json: a value written is the value read *)
Section CodecStrings.





End CodecStrings.

Section CodecRoundTrips.

Variable lib : Library.
Variable w : World.







End CodecRoundTrips.

Section CodecRates.

Variable lib : Library.
Variable w : World.







End CodecRates.

Section CodecClaim.

Variable lib : Library.
Variable w : World.

(** The encoder writes the entries of a map whose floats are finite. *)
Lemma encode_entries_finite entries :
  Forall (λ entry : string * float64, is_finite entry.2 = true) entries →
  ∃ members, encode_entries lib entries = inr members.
Proof.
  induction 1 as [|[k f] rest Hf _ [members Hmembers]]; [by exists []|].
  cbn in Hf. cbn. unfold encode_float. rewrite Hf, Hmembers. by eexists.
Qed.

(** [c.JSON] writes no body for a RatesData exactly when [json.Marshal]
    returns an error for it, the rates being finite. *)
Lemma marshals_rates_iff rates :
  map_Forall (λ _ rate, is_finite rate = true) (Rates_Rates rates) →
  marshals w (ARates rates) = true ↔ ∃ wire, Marshal_RatesData lib w rates = inr wire.
Proof.
  intros Hfinite.
  destruct (encode_entries_finite (sorted_entries (Rates_Rates rates))) as [members Hmembers].
  { unfold sorted_entries. rewrite merge_sort_Permutation.
    apply map_Forall_to_list in Hfinite.
    eapply Forall_impl; [exact Hfinite|]. by intros [k f]. }
  unfold Marshal_RatesData, encode_rates, encode_time. rewrite Hmembers. cbn.
  destruct (year_in_range w (Rates_Timestamp rates)).
  - split; [by eexists | done].
  - split; [done | by intros [wire Hwire]].
Qed.


End CodecClaim.

Section CodecExamples.



End CodecExamples.

(** * Further properties of the adapters and handlers *)
Import Fixtures.

(** ** [geocodeCity]: one request, and what each answer comes to *)
Section GeocodingOutcomes.

Variable w : World.

Lemma geocodeCity_trace cityName country :
  trace (geocodeCity w cityName country)
  = [nominatimRequest (geocodeQuery cityName country)].
Proof.
  unfold geocodeCity, mbind, M_bind, bind, send, decode.
  destruct (Nominatim w _) as [msg|resp]; [done|].
  by destruct (Decoded resp) as [msg|[|r0 rest]].
Qed.

(** Whatever the geocoder does, [geocodeCity] sends exactly one request, the
    one built from the query, and does not panic: there is no retry and no
    second lookup. *)
Theorem geocodeCity_sends_one_request cityName country :
  trace (geocodeCity w cityName country)
  = [nominatimRequest (geocodeQuery cityName country)]
  ∧ ∀ p, result (geocodeCity w cityName country) ≠ Panic p.
Proof.
  split; [|apply geocodeCity_never_panics].
  destruct (Nominatim w (nominatimRequest (geocodeQuery cityName country)))
    as [msg|resp] eqn:Hsent.
  - by rewrite (geocodeCity_transport_failure _ _ _ _ Hsent).
  - destruct (Decoded resp) as [msg|[|r0 rest]] eqn:Hdecoded.
    + by rewrite (geocodeCity_undecodable _ _ _ _ _ Hsent Hdecoded).
    + by rewrite (geocodeCity_no_match _ _ _ _ Hsent Hdecoded).
    + by rewrite (geocodeCity_first_match _ _ _ _ _ _ Hsent Hdecoded).
Qed.

(** [geocodeCity] fails with "location not found" exactly when the geocoder
    answered and the body decodes to zero matches, whatever the status code;
    the error names the query that was sent. *)
Theorem geocodeCity_not_found_iff cityName country query :
  result (geocodeCity w cityName country) = Err (LocationNotFound query)
  ↔ query = geocodeQuery cityName country
    ∧ ∃ resp, Nominatim w (nominatimRequest (geocodeQuery cityName country)) = Responded resp
              ∧ Decoded resp = inr [].
Proof.
  pose proof (geocodeCity_cases w cityName country) as Hcases. cbn zeta in Hcases.
  split.
  - intros Hnot.
    destruct (Nominatim w _) as [msg|resp]; [by rewrite Hcases in Hnot|].
    destruct (Decoded resp) as [msg|[|r0 rest]] eqn:Hdecoded;
      rewrite Hcases in Hnot; try discriminate Hnot.
    injection Hnot as <-. eauto.
  - intros (-> & resp & Hsent & Hdecoded).
    by rewrite Hsent, Hdecoded in Hcases.
Qed.

(** [geocodeCity] returns a coordinate exactly when the geocoder answered
    and the body decodes to at least one match; the coordinate is that of the
    first match, further matches and the status code play no part. *)
Theorem geocodeCity_coordinate_iff cityName country lat lon :
  result (geocodeCity w cityName country) = Ok (lat, lon)
  ↔ ∃ resp r0 rest,
      Nominatim w (nominatimRequest (geocodeQuery cityName country)) = Responded resp
      ∧ Decoded resp = inr (r0 :: rest)
      ∧ lat = Nom_Lat r0 ∧ lon = Nom_Lon r0.
Proof.
  pose proof (geocodeCity_cases w cityName country) as Hcases. cbn zeta in Hcases.
  split.
  - intros Hok.
    destruct (Nominatim w _) as [msg|resp]; [by rewrite Hcases in Hok|].
    destruct (Decoded resp) as [msg|[|r0 rest]] eqn:Hdecoded;
      rewrite Hcases in Hok; try discriminate Hok.
    injection Hok as <- <-. by exists resp, r0, rest.
  - intros (resp & r0 & rest & Hsent & Hdecoded & -> & ->).
    by rewrite Hsent, Hdecoded in Hcases.
Qed.

End GeocodingOutcomes.

(** ** The adapters: which requests they send, and how they fail *)
Section AdapterRequests.

Variable w : World.

Lemma hourly_loop_sends_nothing h n : ∀ i hourly,
  trace (hourly_loop h hourly i n) = [].
Proof.
  induction n as [|n IH]; intros i hourly; [done|].
  cbn [hourly_loop]. unfold index.
  destruct (OM_Time h !! i); [rewrite bind_ret_l|done].
  destruct (OM_Temperature h !! i); [rewrite bind_ret_l|done].
  destruct (OM_WindSpeed h !! i); [rewrite bind_ret_l|done].
  destruct (OM_RelativeHumidity h !! i); [rewrite bind_ret_l|done].
  apply IH.
Qed.

Lemma hourly_loop_never_fails h n : ∀ i hourly e,
  result (hourly_loop h hourly i n) ≠ Err e.
Proof.
  induction n as [|n IH]; intros i hourly e; [done|].
  cbn [hourly_loop]. unfold index.
  destruct (OM_Time h !! i); [rewrite bind_ret_l|done].
  destruct (OM_Temperature h !! i); [rewrite bind_ret_l|done].
  destruct (OM_WindSpeed h !! i); [rewrite bind_ret_l|done].
  destruct (OM_RelativeHumidity h !! i); [rewrite bind_ret_l|done].
  apply IH.
Qed.

(** [fetchWeatherFromOpenMeteo] geocodes by the city name alone and, only
    when that gave a coordinate, asks for the forecast at exactly that
    coordinate: two requests at most, in this order, whatever the forecast
    service answers and even when the zip panics. *)
Theorem fetchWeather_requests cityName :
  trace (fetchWeatherFromOpenMeteo w cityName)
  = match result (geocodeCity w cityName "") with
    | Ok (lat, lon) => [nominatimRequest cityName; openMeteoRequest lat lon]
    | _ => [nominatimRequest cityName]
    end.
Proof.
  pose proof (geocodeCity_trace w cityName "") as Htrace.
  unfold fetchWeatherFromOpenMeteo.
  destruct (geocodeCity w cityName "") as [[[lat lon]|e|p] t]; cbn in Htrace; subst t;
    cbn [on_error result fst]; [|done..].
  unfold mbind, M_bind, bind, send.
  destruct (OpenMeteo w _) as [msg|resp]; [done|].
  destruct (decide (StatusCode resp ≠ 200)); [done|].
  unfold decode. destruct (Decoded resp) as [msg|weatherResponse]; [done|]. cbn [ret].
  pose proof (hourly_loop_sends_nothing (OM_Hourly weatherResponse)
                (length (OM_Time (OM_Hourly weatherResponse))) 0 []) as Hloop.
  destruct (hourly_loop _ _ _ _) as [[hourly|e|p] t]; cbn in Hloop; subst t; done.
Qed.

(** [fetchLandmarksFromFoursquare] geocodes first; only when that gave a
    coordinate and the credential is set does it send a second request, to
    the places service, at that coordinate and with the two parts of the
    credential split at its first '+' (the whole credential twice when it has
    none).  Nothing else is sent, whatever the places service answers. *)
Theorem fetchLandmarks_requests cityName country :
  trace (fetchLandmarksFromFoursquare w cityName country)
  = let geocoding := nominatimRequest (geocodeQuery cityName country) in
    let apiKey := Getenv w "FOURSQUARE_API_KEY" in
    match result (geocodeCity w cityName country) with
    | Ok (lat, lon) =>
        if decide (apiKey = "") then [geocoding]
        else match split_first_plus apiKey with
             | Some (clientID, clientSecret) =>
                 [geocoding; foursquareRequest lat lon clientID clientSecret]
             | None => [geocoding; foursquareRequest lat lon apiKey apiKey]
             end
    | _ => [geocoding]
    end.
Proof.
  pose proof (geocodeCity_trace w cityName country) as Htrace.
  unfold fetchLandmarksFromFoursquare. cbn zeta.
  destruct (geocodeCity w cityName country) as [[[lat lon]|e|p] t]; cbn in Htrace; subst t;
    cbn [on_error result fst]; [|done..].
  unfold mbind, M_bind, bind.
  destruct (decide (Getenv w "FOURSQUARE_API_KEY" = "")); [done|].
  rewrite parseV2APIKey_refines.
  destruct (split_first_plus (Getenv w "FOURSQUARE_API_KEY")) as [[clientID clientSecret]|];
    cbn [mret M_ret ret]; unfold send;
    (destruct (Foursquare w _) as [msg|resp]; [done|]);
    (destruct (decide (StatusCode resp ≠ 200)); [done|]);
    unfold decode; (destruct (Decoded resp) as [msg|fsResponse]; [done|]); cbn [ret];
    by destruct (Body_Groups (Fsq_Response fsResponse)).
Qed.

(** An adapter reports "geocoding failed" exactly when the resolution
    failed; the error wraps the resolver's, and nothing but the geocoding
    request has been sent. *)
Theorem geocoding_failure_is_wrapped cityName country err :
  (result (fetchLandmarksFromFoursquare w cityName country) = Err (GeocodingFailed err)
   ↔ result (geocodeCity w cityName country) = Err err)
  ∧ (result (fetchWeatherFromOpenMeteo w cityName) = Err (GeocodingFailed err)
     ↔ result (geocodeCity w cityName "") = Err err)
  ∧ (result (geocodeCity w cityName country) = Err err →
     fetchLandmarksFromFoursquare w cityName country
     = (Err (GeocodingFailed err), [nominatimRequest (geocodeQuery cityName country)]))
  ∧ (result (geocodeCity w cityName "") = Err err →
     fetchWeatherFromOpenMeteo w cityName
     = (Err (GeocodingFailed err), [nominatimRequest cityName])).
Proof.
  split; [|split; [|split]].
  - unfold fetchLandmarksFromFoursquare, mbind, M_bind, bind.
    destruct (geocodeCity w cityName country) as [[[lat lon]|e|p] t];
      cbn [on_error result fst]; [|split; congruence|done].
    destruct (decide (Getenv w "FOURSQUARE_API_KEY" = "")); [done|].
    rewrite parseV2APIKey_refines.
    destruct (match split_first_plus _ with Some parts => parts | None => _ end)
      as [clientID clientSecret].
    cbn [mret M_ret ret]. unfold send.
    destruct (Foursquare w _) as [msg|resp]; [done|].
    destruct (decide (StatusCode resp ≠ 200)); [done|].
    unfold decode. destruct (Decoded resp) as [msg|fsResponse]; [done|]. cbn [ret].
    by destruct (Body_Groups (Fsq_Response fsResponse)).
  - unfold fetchWeatherFromOpenMeteo, mbind, M_bind, bind, send.
    destruct (geocodeCity w cityName "") as [[[lat lon]|e|p] t];
      cbn [on_error result fst]; [|split; congruence|done].
    destruct (OpenMeteo w _) as [msg|resp]; [done|].
    destruct (decide (StatusCode resp ≠ 200)); [done|].
    unfold decode. destruct (Decoded resp) as [msg|weatherResponse]; [done|]. cbn [ret].
    pose proof (hourly_loop_never_fails (OM_Hourly weatherResponse)
                  (length (OM_Time (OM_Hourly weatherResponse))) 0 []) as Hloop.
    destruct (hourly_loop _ _ _ _) as [[hourly|e|p] t']; [done| |done].
    by destruct (Hloop e).
  - intros Hgeo.
    pose proof (geocodeCity_trace w cityName country) as Htrace.
    unfold fetchLandmarksFromFoursquare.
    destruct (geocodeCity w cityName country) as [o t]. cbn in Hgeo, Htrace. by subst.
  - intros Hgeo.
    pose proof (geocodeCity_trace w cityName "") as Htrace.
    unfold fetchWeatherFromOpenMeteo.
    destruct (geocodeCity w cityName "") as [o t]. cbn in Hgeo, Htrace. by subst.
Qed.

End AdapterRequests.

Section AdapterErrors.

Variable w : World.

(** [fetchLandmarksFromFoursquare] reports the missing credential exactly
    when geocoding gave a coordinate and [FOURSQUARE_API_KEY] is empty: the
    credential is looked at only after the geocoding request has gone out,
    and the places service is then not contacted. *)
Theorem credential_is_checked_after_geocoding cityName country :
  (result (fetchLandmarksFromFoursquare w cityName country) = Err APIKeyNotSet
   ↔ (∃ lat lon, result (geocodeCity w cityName country) = Ok (lat, lon))
     ∧ Getenv w "FOURSQUARE_API_KEY" = "")
  ∧ (result (fetchLandmarksFromFoursquare w cityName country) = Err APIKeyNotSet →
     trace (fetchLandmarksFromFoursquare w cityName country)
     = [nominatimRequest (geocodeQuery cityName country)]).
Proof.
  assert (Hiff : result (fetchLandmarksFromFoursquare w cityName country) = Err APIKeyNotSet
                 ↔ (∃ lat lon, result (geocodeCity w cityName country) = Ok (lat, lon))
                   ∧ Getenv w "FOURSQUARE_API_KEY" = "").
  { unfold fetchLandmarksFromFoursquare, mbind, M_bind, bind.
    destruct (geocodeCity w cityName country) as [[[lat lon]|e|p] t];
      cbn [on_error result fst]; [|split; [done|by intros [(?&?&?) _]]..].
    destruct (decide (Getenv w "FOURSQUARE_API_KEY" = "")) as [Hkey|Hkey];
      [split; eauto|].
    split; [|by intros [_ ?]].
    rewrite parseV2APIKey_refines.
    destruct (match split_first_plus _ with Some parts => parts | None => _ end)
      as [clientID clientSecret].
    cbn [mret M_ret ret]. unfold send.
    destruct (Foursquare w _) as [msg|resp]; [done|].
    destruct (decide (StatusCode resp ≠ 200)); [done|].
    unfold decode. destruct (Decoded resp) as [msg|fsResponse]; [done|]. cbn [ret].
    by destruct (Body_Groups (Fsq_Response fsResponse)). }
  split; [exact Hiff|].
  intros Hnot. apply Hiff in Hnot as [(lat & lon & Hgeo) Hkey].
  pose proof (geocodeCity_trace w cityName country) as Htrace.
  unfold fetchLandmarksFromFoursquare, mbind, M_bind, bind.
  destruct (geocodeCity w cityName country) as [o t]. cbn in Hgeo, Htrace. subst o t.
  cbn [on_error]. by rewrite decide_True.
Qed.

End AdapterErrors.

Section StatusErrors.

Variable w : World.

(** Each of the four adapters that reads the status code treats every status
    other than 200, another 2xx included, as an error that carries the code
    and the raw body; the body is not decoded and nothing more is sent. *)
Theorem status_other_than_200_is_an_error :
  (∀ baseCurrency resp,
     ExchangeRateAPI w (exchangeRateRequest baseCurrency) = Responded resp →
     StatusCode resp ≠ 200 →
     fetchRatesFromExchangeAPI w baseCurrency
     = (Err (StatusError "exchange-rate" (StatusCode resp) (Body resp)),
        [exchangeRateRequest baseCurrency]))
  ∧ (∀ resp,
       RestCountries w restCountriesRequest = Responded resp →
       StatusCode resp ≠ 200 →
       fetchCitiesFromRestCountries w
       = (Err (StatusError "rest-countries" (StatusCode resp) (Body resp)),
          [restCountriesRequest]))
  ∧ (∀ cityName lat lon t resp,
       geocodeCity w cityName "" = (Ok (lat, lon), t) →
       OpenMeteo w (openMeteoRequest lat lon) = Responded resp →
       StatusCode resp ≠ 200 →
       fetchWeatherFromOpenMeteo w cityName
       = (Err (StatusError "open-meteo" (StatusCode resp) (Body resp)),
          t ++ [openMeteoRequest lat lon]))
  ∧ (∀ cityName country lat lon t clientID clientSecret resp,
       geocodeCity w cityName country = (Ok (lat, lon), t) →
       Getenv w "FOURSQUARE_API_KEY" ≠ "" →
       parseV2APIKey (Getenv w "FOURSQUARE_API_KEY") = mret (clientID, clientSecret) →
       Foursquare w (foursquareRequest lat lon clientID clientSecret) = Responded resp →
       StatusCode resp ≠ 200 →
       fetchLandmarksFromFoursquare w cityName country
       = (Err (StatusError "foursquare" (StatusCode resp) (Body resp)),
          t ++ [foursquareRequest lat lon clientID clientSecret])).
Proof.
  split; [|split; [|split]].
  - intros baseCurrency resp Hsent Hstatus.
    unfold fetchRatesFromExchangeAPI, mbind, M_bind, bind, send.
    rewrite Hsent. by rewrite decide_True.
  - intros resp Hsent Hstatus.
    unfold fetchCitiesFromRestCountries, mbind, M_bind, bind, send.
    rewrite Hsent. by rewrite decide_True.
  - intros cityName lat lon t resp Hgeo Hsent Hstatus.
    unfold fetchWeatherFromOpenMeteo, mbind, M_bind, bind, send.
    rewrite Hgeo. cbn [on_error]. rewrite Hsent. by rewrite decide_True.
  - intros cityName country lat lon t clientID clientSecret resp Hgeo Hkey Hparse Hsent Hstatus.
    unfold fetchLandmarksFromFoursquare, mbind, M_bind, bind, send.
    rewrite Hgeo. cbn [on_error]. rewrite decide_False by done.
    rewrite Hparse. cbn [mret M_ret ret]. rewrite Hsent. by rewrite decide_True.
Qed.

End StatusErrors.

Lemma status_other_than_200_witness :
  fetchRatesFromExchangeAPI unavailable "XYZ"
  = (Err (StatusError "exchange-rate" 404 "unsupported-code"), [exchangeRateRequest "XYZ"])
  ∧ fetchCitiesFromRestCountries unavailable
    = (Err (StatusError "rest-countries" 503 "Service Unavailable"), [restCountriesRequest])
  ∧ fetchWeatherFromOpenMeteo unavailable "London"
    = (Err (StatusError "open-meteo" 429 "Too Many Requests"),
       [nominatimRequest "London"] ++ [openMeteoRequest 51.5%float (-0.125)%float])
  ∧ fetchLandmarksFromFoursquare unavailable "London" "England"
    = (Err (StatusError "foursquare" 204 ""),
       [nominatimRequest "London, England"]
       ++ [foursquareRequest 51.5%float (-0.125)%float "CLIENT_ID" "CLIENT_SECRET"]).
Proof.
  destruct (status_other_than_200_is_an_error unavailable) as (Hrates & Hcities & Hweather & Hsights).
  split; [|split; [|split]].
  - by apply (Hrates "XYZ" {| StatusCode := 404; Body := "unsupported-code";
                              Decoded := inl "unexpected body" |}).
  - by apply (Hcities {| StatusCode := 503; Body := "Service Unavailable";
                         Decoded := inl "unexpected body" |}).
  - by apply (Hweather "London" _ _ _ {| StatusCode := 429; Body := "Too Many Requests";
                                         Decoded := inl "unexpected body" |}).
  - by apply (Hsights "London" "England" _ _ _ _ _
                {| StatusCode := 204; Body := ""; Decoded := inl "unexpected body" |}).
Defined.

(** ** [fetchCitiesFromRestCountries]: the loop as the code runs it *)
Section CitiesLoop.

Variable w : World.

Lemma int_wrap_small z : - 2 ^ 63 ≤ z < 2 ^ 63 → Go.int_wrap z = z.
Proof. intros Hz. unfold Go.int_wrap. rewrite Z.mod_small; lia. Qed.

Lemma cities_loop_emits countries : ∀ k cities id,
  ∃ emitted,
    cities_loop w k cities id countries = mret (cities ++ emitted) ∧
    Forall2 emitted_as (List.filter passes_guard countries) emitted ∧
    (length emitted ≤ length countries)%nat ∧
    (0 ≤ id → id + Z.of_nat (length countries) < 2 ^ 63 → numbered_from id emitted).
Proof.
  induction countries as [|country countries IH]; intros k cities id.
  - exists []. rewrite app_nil_r. split; [done|]. split; [constructor|]. split; [done|].
    intros _ _ i city Hi. done.
  - cbn [cities_loop List.filter]. unfold passes_guard at 1.
    destruct ((length (RC_Capital country) =? 0)%nat || is_nil (RC_Currencies country))
      eqn:Hguard; cbn [negb].
    + destruct (IH (S k) cities id) as (emitted & Hloop & Hentries & Hlen & Hids).
      exists emitted. split; [done|]. split; [done|]. split; [cbn; lia|].
      intros Hid Hmax. apply Hids; [done|]. cbn [length] in Hmax. lia.
    + apply orb_false_iff in Hguard as [Hcapital Hcurrencies].
      destruct (RC_Capital country) as [|capital0 capitals] eqn:Hcap; [done|].
      destruct (RC_Currencies country) as [m|] eqn:Hcur; [|done].
      rewrite (index_Some _ _ capital0) by done. rewrite bind_ret_l.
      set (city := {| City_ID := id |}).
      destruct (IH (S k) (cities ++ [city]) (Go.int_wrap (id + 1)))
        as (emitted & Hloop & Hentries & Hlen & Hids).
      exists (city :: emitted). rewrite Hloop, <- app_assoc.
      split; [done|]. split; [|split; [cbn; lia|]].
      * constructor; [|done].
        unfold emitted_as. rewrite Hcap, Hcur.
        split; [done|]. split; [done|]. split; [done|].
        exists m. split; [done|].
        destruct (decide (m = ∅)) as [->|Hm].
        -- left. split; [done|]. cbn. unfold first_key.
           by rewrite map_to_list_empty.
        -- right. by apply first_key_declared.
      * intros Hid Hmax. cbn [length] in Hmax.
        rewrite int_wrap_small in Hids by lia.
        intros [|i] city' Hi; cbn in Hi.
        -- injection Hi as <-. cbn. lia.
        -- rewrite (Hids ltac:(lia) ltac:(lia) i city' Hi). lia.
Qed.

Lemma fetchCities_never_panics p :
  result (fetchCitiesFromRestCountries w) ≠ Panic p.
Proof.
  unfold fetchCitiesFromRestCountries, mbind, M_bind, bind, send.
  destruct (RestCountries w _) as [msg|resp]; [done|].
  destruct (decide (StatusCode resp ≠ 200)); [done|].
  unfold decode. destruct (Decoded resp) as [msg|countries]; [done|]. cbn [ret].
  by destruct (cities_loop_emits countries 0 [] 1) as (cities & -> & _).
Qed.

End CitiesLoop.

Section CitiesBehaviour.

Variable w : World.

(** [fetchCitiesFromRestCountries] sends exactly one request and never
    panics: [Capital[0]] is read only behind the length test. *)
Theorem fetchCities_one_request_no_panic :
  trace (fetchCitiesFromRestCountries w) = [restCountriesRequest]
  ∧ ∀ p, result (fetchCitiesFromRestCountries w) ≠ Panic p.
Proof.
  unfold fetchCitiesFromRestCountries, mbind, M_bind, bind, send.
  destruct (RestCountries w _) as [msg|resp]; [done|].
  destruct (decide (StatusCode resp ≠ 200)); [done|].
  unfold decode. destruct (Decoded resp) as [msg|countries]; [done|]. cbn [ret].
  destruct (cities_loop_emits w countries 0 [] 1) as (cities & -> & _).
  done.
Qed.

(** The directory as the loop produces it, for every upstream directory: one
    City, in order, for each country with a non-empty capital list and a
    non-nil currency map, and none for the others.  The City carries the
    first capital and the country's codes; its currency is one of the keys
    of the currency map, and the empty string when that map exists but has
    no entry. *)
Theorem fetchCities_follows_the_guard countries :
  answers (RestCountries w) restCountriesRequest countries →
  ∃ cities,
    fetchCitiesFromRestCountries w = (Ok cities, [restCountriesRequest]) ∧
    Forall2 emitted_as (List.filter passes_guard countries) cities ∧
    (length cities ≤ length countries)%nat.
Proof.
  intros (resp & Hsent & Hstatus & Hdecoded).
  destruct (cities_loop_emits w countries 0 [] 1) as (cities & Hloop & Hentries & Hlen & _).
  exists cities. split; [|done].
  unfold fetchCitiesFromRestCountries, mbind, M_bind, bind, send, decode.
  rewrite Hsent. rewrite decide_False by (rewrite Hstatus; intros Hne; by apply Hne).
  rewrite Hdecoded. cbn [ret]. by rewrite Hloop.
Qed.

(** The identifiers of the directory are 1, 2, 3, ... in output order: a
    country that is passed over uses up no identifier. *)
Theorem fetchCities_numbers_from_one countries :
  answers (RestCountries w) restCountriesRequest countries →
  1 + Z.of_nat (length countries) < 2 ^ 63 →
  ∃ cities,
    result (fetchCitiesFromRestCountries w) = Ok cities ∧
    ∀ i city, cities !! i = Some city → City_ID city = 1 + Z.of_nat i.
Proof.
  intros (resp & Hsent & Hstatus & Hdecoded) Hmax.
  destruct (cities_loop_emits w countries 0 [] 1) as (cities & Hloop & _ & _ & Hids).
  exists cities. split; [|apply Hids; lia].
  unfold fetchCitiesFromRestCountries, mbind, M_bind, bind, send, decode.
  rewrite Hsent. rewrite decide_False by (rewrite Hstatus; intros Hne; by apply Hne).
  rewrite Hdecoded. cbn [ret]. by rewrite Hloop.
Qed.

End CitiesBehaviour.

Section CitiesBehaviourWitnesses.

Lemma fetchCities_follows_the_guard_witness :
  ∃ cities,
    fetchCitiesFromRestCountries
      (with_directory [united_kingdom; antarctica; empty_currencies; unpriced; france])
    = (Ok cities, [restCountriesRequest]) ∧
    Forall2 emitted_as
      (List.filter passes_guard
         [united_kingdom; antarctica; empty_currencies; unpriced; france])
      cities ∧
    (length cities ≤ 5)%nat.
Proof.
  apply (fetchCities_follows_the_guard
           (with_directory [united_kingdom; antarctica; empty_currencies; unpriced; france])).
  eexists. split; [reflexivity|]. split; reflexivity.
Defined.

Lemma fetchCities_numbers_from_one_witness :
  ∃ cities,
    result (fetchCitiesFromRestCountries
              (with_directory [united_kingdom; antarctica; empty_currencies; unpriced; france]))
    = Ok cities ∧
    ∀ i city, cities !! i = Some city → City_ID city = 1 + Z.of_nat i.
Proof.
  apply (fetchCities_numbers_from_one
           (with_directory [united_kingdom; antarctica; empty_currencies; unpriced; france])
           [united_kingdom; antarctica; empty_currencies; unpriced; france]).
  - eexists. split; [reflexivity|]. split; reflexivity.
  - cbn. lia.
Defined.

Example directory_of_five :
  result (fetchCitiesFromRestCountries
            (with_directory [united_kingdom; antarctica; empty_currencies; unpriced; france]))
  = Ok [ {| City_ID := 1; City_Name := "London"; City_ThreeLetterCode := "GBR";
            City_Currency := "GBP"; City_Country := "United Kingdom" |};
         {| City_ID := 2; City_Name := "Swapton"; City_ThreeLetterCode := "BRT";
            City_Currency := ""; City_Country := "Barterland" |};
         {| City_ID := 3; City_Name := "Paris"; City_ThreeLetterCode := "FRA";
            City_Currency := "EUR"; City_Country := "France" |} ].
Proof. reflexivity. Qed.

End CitiesBehaviourWitnesses.

(** ** The handlers: status codes and bodies *)
Section HandlerResponses.

Variable w : World.
Variable c : Context.

(** [GetRates] with an empty currency parameter answers 400 with the
    one-field body and sends no request. *)
Theorem currency_parameter_required :
  Param c "currency" = "" →
  GetRates w c
  = (Ok {| Status := 400;
           JSON := H {[ "error" := AString "currency parameter is required" ]} |}, []).
Proof. intros Hcurrency. unfold GetRates. by rewrite Hcurrency, decide_True. Qed.

(** [GetRates] with a non-empty currency parameter does not panic.  When
    the adapter succeeds it answers 200: with the RatesData itself as the
    body when the year of its time stamp is within 0..9999, and without a
    body otherwise.  When the adapter fails it answers 500 with the fixed
    text and the adapter's message. *)
Theorem GetRates_answers :
  Param c "currency" ≠ "" →
  match result (fetchRatesFromExchangeAPI w (Param c "currency")) with
  | Ok rates =>
      result (GetRates w c)
      = Ok {| Status := 200;
              JSON := if year_in_range w (Rates_Timestamp rates)
                      then Plain (ARates rates) else NoBody |}
  | Err err => result (GetRates w c) = Ok (failure "Failed to fetch rates" err)
  | Panic _ => False
  end.
Proof.
  intros Hcurrency. unfold GetRates. rewrite decide_False by done.
  pose proof (fetchRates_never_panics w (Param c "currency")) as Hpanic.
  destruct (fetchRatesFromExchangeAPI w (Param c "currency")) as [[rates|err|p] t]; cbn.
  - done.
  - reflexivity.
  - by destruct (Hpanic p).
Qed.

(** [GetCities], [GetLandmarks] and [GetRates] always write a response: none
    of them panics, [GetCities] answers 200 or 500, the other two 200, 400
    or 500. *)
Theorem handlers_always_respond :
  (∃ resp, result (GetCities w c) = Ok resp ∧ (Status resp = 200 ∨ Status resp = 500))
  ∧ (∃ resp, result (GetLandmarks w c) = Ok resp
             ∧ (Status resp = 200 ∨ Status resp = 400 ∨ Status resp = 500))
  ∧ (∃ resp, result (GetRates w c) = Ok resp
             ∧ (Status resp = 200 ∨ Status resp = 400 ∨ Status resp = 500)).
Proof.
  split; [|split].
  - unfold GetCities.
    pose proof (fetchCities_never_panics w) as Hpanic.
    destruct (fetchCitiesFromRestCountries w) as [[cities|err|p] t]; cbn.
    + eauto.
    + eauto.
    + by destruct (Hpanic p).
  - unfold GetLandmarks. destruct (decide (Query c "city" = "")); [cbn; eauto|].
    pose proof (fetchLandmarks_never_panics w (Query c "city") (Query c "country")) as Hpanic.
    destruct (fetchLandmarksFromFoursquare w _ _) as [[landmarks|err|p] t]; cbn.
    + eauto.
    + eauto.
    + by destruct (Hpanic p).
  - unfold GetRates. destruct (decide (Param c "currency" = "")); [cbn; eauto|].
    pose proof (fetchRates_never_panics w (Param c "currency")) as Hpanic.
    destruct (fetchRatesFromExchangeAPI w _) as [[rates|err|p] t]; cbn.
    + eauto.
    + eauto.
    + by destruct (Hpanic p).
Qed.

End HandlerResponses.

Section HandlerCompositions.

Variable w : World.
Variable c : Context.

(** When the geocoder finds no match for a landmarks or weather request that
    names a city, the handler answers 500: the body holds the handler's fixed
    text and, as message, "geocoding failed: location not found: " followed
    by the query; only the geocoding request has been sent.  The landmarks
    query is "city, country" when a country is given, the weather query the
    city alone. *)
Theorem unknown_city_is_a_500 :
  Query c "city" ≠ "" →
  (answers (Nominatim w)
     (nominatimRequest (geocodeQuery (Query c "city") (Query c "country"))) [] →
   GetLandmarks w c
   = (Ok {| Status := 500;
            JSON := H {[ "error" := AString "Failed to fetch landmarks";
                         "message" :=
                           AString ("geocoding failed: " +:+ "location not found: "
                                    +:+ geocodeQuery (Query c "city") (Query c "country")) ]} |},
      [nominatimRequest (geocodeQuery (Query c "city") (Query c "country"))]))
  ∧ (answers (Nominatim w) (nominatimRequest (Query c "city")) [] →
     GetWeather w c
     = (Ok {| Status := 500;
              JSON := H {[ "error" := AString "Failed to fetch weather";
                           "message" :=
                             AString ("geocoding failed: " +:+ "location not found: "
                                      +:+ Query c "city") ]} |},
        [nominatimRequest (Query c "city")])).
Proof.
  intros Hcity. split.
  - intros (resp & Hsent & _ & Hdecoded).
    unfold GetLandmarks. rewrite decide_False by done.
    unfold fetchLandmarksFromFoursquare.
    by rewrite (geocodeCity_no_match _ _ _ _ Hsent Hdecoded).
  - intros (resp & Hsent & _ & Hdecoded).
    unfold GetWeather. rewrite decide_False by done.
    unfold fetchWeatherFromOpenMeteo.
    by rewrite (geocodeCity_no_match w (Query c "city") "" _ Hsent Hdecoded).
Qed.

(** [GetWeather] does not turn a short forecast array into a 500: when the
    forecast answers with a temperature, wind-speed or humidity array
    shorter than the time array, the handler itself panics and writes
    nothing. *)
Theorem GetWeather_panics_on_short_array lat lon t weatherResponse :
  Query c "city" ≠ "" →
  forecast_answers w (Query c "city") lat lon t weatherResponse →
  (length (OM_Temperature (OM_Hourly weatherResponse))
     < length (OM_Time (OM_Hourly weatherResponse))
   ∨ length (OM_WindSpeed (OM_Hourly weatherResponse))
       < length (OM_Time (OM_Hourly weatherResponse))
   ∨ length (OM_RelativeHumidity (OM_Hourly weatherResponse))
       < length (OM_Time (OM_Hourly weatherResponse)))%nat →
  ∃ p, result (GetWeather w c) = Panic p.
Proof.
  intros Hcity Hanswers Hshort.
  destruct (fetchWeather_panics_on_short_array w _ _ _ _ _ Hanswers Hshort) as [p Hpanic].
  exists p. unfold GetWeather. rewrite decide_False by done.
  destruct (fetchWeatherFromOpenMeteo w _) as [o t']. cbn in Hpanic. by subst o.
Qed.

(** On a directory that answers, [GetCities] responds 200 with the cities
    and a count equal to their number, which is the number of countries that
    pass the guard of the loop. *)
Theorem GetCities_counts_the_cities countries :
  answers (RestCountries w) restCountriesRequest countries →
  ∃ cities,
    GetCities w c
    = (Ok {| Status := 200;
             JSON := H {[ "cities" := ACities cities;
                          "count" := AInt (Z.of_nat (length cities)) ]} |},
       [restCountriesRequest])
    ∧ length cities = length (List.filter passes_guard countries).
Proof.
  intros (resp & Hsent & Hstatus & Hdecoded).
  destruct (cities_loop_emits w countries 0 [] 1) as (cities & Hloop & Hentries & _).
  exists cities. split; [|symmetry; by eapply Forall2_length].
  unfold GetCities, fetchCitiesFromRestCountries, mbind, M_bind, bind, send, decode.
  rewrite Hsent. rewrite decide_False by (rewrite Hstatus; intros Hne; by apply Hne).
  rewrite Hdecoded. cbn [ret]. by rewrite Hloop.
Qed.

End HandlerCompositions.

Section HandlerWitnesses.

Lemma currency_parameter_required_witness :
  GetRates rates_down no_currency
  = (Ok {| Status := 400;
           JSON := H {[ "error" := AString "currency parameter is required" ]} |}, []).
Proof. apply (currency_parameter_required rates_down no_currency). reflexivity. Defined.

Lemma GetRates_answers_witness :
  match result (fetchRatesFromExchangeAPI rates_report_error (Param usd_rates "currency")) with
  | Ok rates =>
      result (GetRates rates_report_error usd_rates)
      = Ok {| Status := 200;
              JSON := if year_in_range rates_report_error (Rates_Timestamp rates)
                      then Plain (ARates rates) else NoBody |}
  | Err err =>
      result (GetRates rates_report_error usd_rates) = Ok (failure "Failed to fetch rates" err)
  | Panic _ => False
  end.
Proof. apply (GetRates_answers rates_report_error usd_rates). done. Defined.

(** The rates of a service whose time of last update is in the year 10000:
    status 200 and no body. *)
Example GetRates_in_year_10000 :
  GetRates rates_in_year_10000 usd_rates
  = (Ok {| Status := 200; JSON := NoBody |}, [exchangeRateRequest "USD"]).
Proof. reflexivity. Qed.

Lemma unknown_city_is_a_500_witness :
  GetLandmarks nowhere london_query
  = (Ok {| Status := 500;
           JSON := H {[ "error" := AString "Failed to fetch landmarks";
                        "message" :=
                          AString "geocoding failed: location not found: London, England" ]} |},
     [nominatimRequest "London, England"])
  ∧ GetWeather nowhere london_query
    = (Ok {| Status := 500;
             JSON := H {[ "error" := AString "Failed to fetch weather";
                          "message" :=
                            AString "geocoding failed: location not found: London" ]} |},
       [nominatimRequest "London"]).
Proof.
  destruct (unknown_city_is_a_500 nowhere london_query) as [Hlandmarks Hweather]; [done|].
  split.
  - apply Hlandmarks. eexists. split; [reflexivity|]. split; reflexivity.
  - apply Hweather. eexists. split; [reflexivity|]. split; reflexivity.
Defined.

Lemma GetWeather_panics_on_short_array_witness :
  ∃ p, result (GetWeather (with_forecast time_only) london_query) = Panic p.
Proof.
  apply (GetWeather_panics_on_short_array (with_forecast time_only) london_query
           51.5%float (-0.125)%float [nominatimRequest "London"] time_only).
  - done.
  - apply forecast_answers_london.
  - left. cbn. lia.
Defined.

Lemma GetCities_counts_the_cities_witness :
  ∃ cities,
    GetCities (with_directory [united_kingdom; antarctica; france]) no_currency
    = (Ok {| Status := 200;
             JSON := H {[ "cities" := ACities cities;
                          "count" := AInt (Z.of_nat (length cities)) ]} |},
       [restCountriesRequest])
    ∧ length cities = length (List.filter passes_guard [united_kingdom; antarctica; france]).
Proof.
  apply (GetCities_counts_the_cities (with_directory [united_kingdom; antarctica; france])).
  eexists. split; [reflexivity|]. split; reflexivity.
Defined.

End HandlerWitnesses.

(** ** [GetCityData]: what every schedule sends and writes *)
Section BundleSchedules.

Variable w : World.
Variable c : Context.

Local Abbreviation run := (rtc (GetCityData_step w c) GetCityData_start).
Local Abbreviation final := (nf (GetCityData_step w c)).

(** A task sends what its fetch sends. *)
Lemma task_traces :
  trace (landmarksTask w (Param c "name") (Param c "country"))
  = trace (fetchLandmarksFromFoursquare w (Param c "name") (Param c "country"))
  ∧ trace (weatherTask w (Param c "name"))
    = trace (fetchWeatherFromOpenMeteo w (Param c "name"))
  ∧ trace (ratesTask w) = trace (fetchRatesFromExchangeAPI w "USD").
Proof.
  unfold landmarksTask, weatherTask, ratesTask.
  destruct (fetchLandmarksFromFoursquare w _ _) as [[?|?|?] ?];
    destruct (fetchWeatherFromOpenMeteo w _) as [[?|?|?] ?];
    destruct (fetchRatesFromExchangeAPI w _) as [[?|?|?] ?]; cbn;
    by rewrite ?app_nil_r.
Qed.

Lemma interleaving_snoc_l {A} (x : A) a b m :
  interleaving a b m → interleaving (a ++ [x]) b (m ++ [x]).
Proof. induction 1; cbn; by repeat constructor. Qed.

Lemma interleaving_snoc_r {A} (x : A) a b m :
  interleaving a b m → interleaving a (b ++ [x]) (m ++ [x]).
Proof. induction 1; cbn; by repeat constructor. Qed.

Lemma accounted_step s s' :
  accounted (trace (landmarksTask w (Param c "name") (Param c "country")))
            (trace (weatherTask w (Param c "name")))
            (trace (ratesTask w)) s →
  GetCityData_step w c s s' →
  accounted (trace (landmarksTask w (Param c "name") (Param c "country")))
            (trace (weatherTask w (Param c "name")))
            (trace (ratesTask w)) s'.
Proof.
  intros Hinv Hstep.
  destruct Hstep as [gw gr h sent n req Hreq | gw gr h sent r t Htask | gw gr h sent p t Htask
                    | gl gr h sent n req Hreq | gl gr h sent r t Htask | gl gr h sent p t Htask
                    | gl gw h sent n req Hreq | gl gw h sent r t Htask | gl gw h sent p t Htask
                    | gw gr sent r | gl gr sent lr r | gl gw sent lr xr r];
    cbn in Hinv |- *; try done;
    try (rewrite Htask in Hinv |- *; cbn [trace snd] in Hinv |- *;
         by rewrite firstn_all in Hinv);
    rewrite (take_S_r _ _ _ Hreq); destruct Hinv as (ab & Hab & Hsent).
  - exists (ab ++ [req]). split; by apply interleaving_snoc_l.
  - exists (ab ++ [req]). split; [by apply interleaving_snoc_r | by apply interleaving_snoc_l].
  - exists ab. split; [done | by apply interleaving_snoc_r].
Qed.

Lemma accounted_reachable s :
  run s →
  accounted (trace (landmarksTask w (Param c "name") (Param c "country")))
            (trace (weatherTask w (Param c "name")))
            (trace (ratesTask w)) s.
Proof.
  revert s. apply rtc_ind_r.
  - cbn. exists []. split; constructor.
  - intros s s' _ Hstep Hinv. by eapply accounted_step.
Qed.

(** When the weather fetch does not panic, every schedule has, at its end,
    sent exactly the requests of the three fetches, those of each fetch in
    the order in which the fetch sends them: no fetch is skipped or cut short
    because another failed, and the rates are always asked for USD. *)
Theorem every_fetch_runs_to_its_end s :
  (∀ p, result (fetchWeatherFromOpenMeteo w (Param c "name")) ≠ Panic p) →
  run s → final s →
  ∃ gl gw gr h sent,
    s = Serving gl gw gr h sent
    ∧ interleaving3
        (trace (fetchLandmarksFromFoursquare w (Param c "name") (Param c "country")))
        (trace (fetchWeatherFromOpenMeteo w (Param c "name")))
        [exchangeRateRequest "USD"]
        sent.
Proof.
  intros Hweather Hrun Hfinal.
  destruct (landmarksTask_returns w c) as (rl & tl & Hl).
  destruct (weatherTask_returns w c Hweather) as (rw & tw & Hw).
  destruct (ratesTask_returns w) as (rr & tr & Hr).
  pose proof (collecting_reachable w c rl rw rr tl tw tr Hl Hw Hr s Hrun) as Hinv.
  pose proof (collecting_final w c rl rw rr tl tw tr Hl Hw Hr s Hinv Hfinal) as Hwritten.
  pose proof (accounted_reachable s Hrun) as Hsent.
  destruct s as [gl gw gr h sent|]; [|done].
  destruct h as [| | |resp]; try done.
  destruct Hinv as (_ & _ & _ & _ & -> & -> & ->).
  exists Exited, Exited, Exited, (Written resp), sent. split; [done|].
  destruct task_traces as (<- & <- & Hrates). cbn in Hsent.
  replace [exchangeRateRequest "USD"] with (trace (ratesTask w)); [done|].
  rewrite Hrates.
  unfold fetchRatesFromExchangeAPI, mbind, M_bind, bind, send, decode.
  destruct (ExchangeRateAPI w _) as [msg|resp']; [done|].
  destruct (decide (StatusCode resp' ≠ 200)); [done|].
  by destruct (Decoded resp').
Qed.

Lemma before_weather_step p s s' :
  result (fetchWeatherFromOpenMeteo w (Param c "name")) = Panic p →
  before_weather (trace (weatherTask w (Param c "name"))) s →
  GetCityData_step w c s s' →
  before_weather (trace (weatherTask w (Param c "name"))) s'.
Proof.
  intros Hpanic Hinv Hstep.
  assert (∀ r t, weatherTask w (Param c "name") ≠ (Ok r, t)) as Hnever.
  { intros r t Htask. pose proof (weatherTask_result w (Param c "name")) as Hresult.
    rewrite Hpanic, Htask in Hresult. discriminate Hresult. }
  destruct Hstep as [gw gr h sent n req Hreq | gw gr h sent r t Htask | gw gr h sent p' t Htask
                    | gl gr h sent n req Hreq | gl gr h sent r t Htask | gl gr h sent p' t Htask
                    | gl gw h sent n req Hreq | gl gw h sent r t Htask | gl gw h sent p' t Htask
                    | gw gr sent r | gl gr sent lr r | gl gw sent lr xr r];
    cbn in Hinv |- *; try done;
    try (by destruct (Hnever r t));
    try (by destruct Hinv as [(? & ? & _) _]).
  split; [|apply Hinv]. exists (S n). split; [done|]. by apply lookup_lt_Some in Hreq.
Qed.

(** When the weather fetch panics, some schedule crashes the process: the
    weather goroutine sends its requests and panics before anything else
    happens. *)
Lemma weather_panic_is_reached p tw :
  weatherTask w (Param c "name") = (Panic p, tw) →
  run (Crashed p tw).
Proof.
  intros Htask. unfold GetCityData_start.
  etrans; [apply (weather_requests_run w c _ _ _ (length tw) [] 0); by rewrite Htask|].
  rewrite Htask. cbn [trace snd drop app Nat.add].
  apply rtc_once. by apply weather_panicked.
Qed.

(** When the weather fetch panics, no schedule writes a response: every one
    of them ends with the process crashed, whatever the other two fetches
    came to. *)
Theorem weather_panic_ends_every_schedule p s :
  result (fetchWeatherFromOpenMeteo w (Param c "name")) = Panic p →
  run s → final s →
  written s = None ∧ ∃ p' sent, s = Crashed p' sent.
Proof.
  intros Hpanic Hrun Hfinal.
  assert (before_weather (trace (weatherTask w (Param c "name"))) s) as Hinv.
  { clear Hfinal. revert s Hrun. apply rtc_ind_r.
    - cbn. split; [|done]. exists 0%nat. split; [done|lia].
    - intros s s' _ Hstep Hinv. by eapply before_weather_step. }
  destruct s as [gl gw gr h sent|p' sent]; [|eauto].
  destruct Hinv as [(n & -> & Hn) _]. destruct Hfinal.
  pose proof (weatherTask_result w (Param c "name")) as Hresult. rewrite Hpanic in Hresult.
  destruct (weatherTask w (Param c "name")) as [o t] eqn:Htask. cbn in Hresult, Hn. subst o.
  destruct (decide (n = length t)) as [->|Hlt].
  - eexists. by eapply weather_panicked.
  - destruct (lookup_lt_is_Some_2 t n) as [req Hreq]; [lia|].
    eexists. apply weather_request. rewrite Htask. exact Hreq.
Qed.


End BundleSchedules.

Section BundleScheduleWitnesses.

(** The end of the schedule "landmarks, weather, rates, then the three
    receives" for London, England with the rates service down. *)
Lemma london_done_is_reached :
  ∃ resp,
    rtc (GetCityData_step rates_down london_bundle) GetCityData_start
        (Serving Exited Exited Exited (Written resp)
           [nominatimRequest "London, England";
            foursquareRequest 51.5%float (-0.125)%float "CLIENT_ID" "CLIENT_SECRET";
            nominatimRequest "London";
            openMeteoRequest 51.5%float (-0.125)%float;
            exchangeRateRequest "USD"])
    ∧ nf (GetCityData_step rates_down london_bundle)
         (Serving Exited Exited Exited (Written resp)
            [nominatimRequest "London, England";
             foursquareRequest 51.5%float (-0.125)%float "CLIENT_ID" "CLIENT_SECRET";
             nominatimRequest "London";
             openMeteoRequest 51.5%float (-0.125)%float;
             exchangeRateRequest "USD"]).
Proof.
  eexists. split.
  - exact (GetCityData_one_by_one rates_down london_bundle _ _ _ _ _ _
             eq_refl eq_refl eq_refl).
  - apply written_is_final.
Qed.

Lemma every_fetch_runs_to_its_end_witness :
  ∃ resp gl gw gr h sent,
    Serving Exited Exited Exited (Written resp)
      [nominatimRequest "London, England";
       foursquareRequest 51.5%float (-0.125)%float "CLIENT_ID" "CLIENT_SECRET";
       nominatimRequest "London";
       openMeteoRequest 51.5%float (-0.125)%float;
       exchangeRateRequest "USD"]
    = Serving gl gw gr h sent
    ∧ interleaving3
        (trace (fetchLandmarksFromFoursquare rates_down
                  (Param london_bundle "name") (Param london_bundle "country")))
        (trace (fetchWeatherFromOpenMeteo rates_down (Param london_bundle "name")))
        [exchangeRateRequest "USD"]
        sent.
Proof.
  destruct london_done_is_reached as (resp & Hrun & Hfinal).
  exists resp.
  apply (every_fetch_runs_to_its_end rates_down london_bundle _); [|done..].
  intros p Hp. vm_compute in Hp. discriminate Hp.
Defined.

Lemma weather_panic_ends_every_schedule_witness :
  written (Crashed (Go.IndexOutOfRange 0 0)
             [nominatimRequest "London"; openMeteoRequest 51.5%float (-0.125)%float])
  = None
  ∧ ∃ p' sent,
      Crashed (Go.IndexOutOfRange 0 0)
        [nominatimRequest "London"; openMeteoRequest 51.5%float (-0.125)%float]
      = Crashed p' sent.
Proof.
  apply (weather_panic_ends_every_schedule (with_forecast time_only) london_bundle
           (Go.IndexOutOfRange 0 0)).
  - reflexivity.
  - by apply (weather_panic_is_reached (with_forecast time_only) london_bundle).
  - apply crashed_is_final.
Defined.


End BundleScheduleWitnesses.

(** ** [GetLandmarks] and [GetWeather] on success *)
Section HandlerSuccess.

Variable w : World.
Variable c : Context.

(** On a successful places search [GetLandmarks] answers 200 with the
    landmarks of the first result group and a count equal to the number of
    its items. *)
Theorem GetLandmarks_counts_the_landmarks fsResponse :
  Query c "city" ≠ "" →
  places_search_answers w (Query c "city") (Query c "country") fsResponse →
  result (GetLandmarks w c)
  = Ok {| Status := 200;
          JSON := H {[ "landmarks" := ALandmarks (map landmark_of (first_group_items fsResponse));
                       "count" := AInt (Z.of_nat (length (first_group_items fsResponse))) ]} |}.
Proof.
  intros Hcity Hanswers.
  destruct (fetchLandmarks_first_group w _ _ _ Hanswers) as [t Hfetch].
  unfold GetLandmarks. rewrite decide_False by done. rewrite Hfetch. cbn.
  by rewrite length_map.
Qed.


End HandlerSuccess.

Section HandlerSuccessWitnesses.

Lemma GetLandmarks_counts_the_landmarks_witness :
  result (GetLandmarks (with_sights (sights [[big_ben; tower_bridge]])) london_query)
  = Ok {| Status := 200;
          JSON := H {[ "landmarks" :=
                         ALandmarks (map landmark_of
                                       (first_group_items (sights [[big_ben; tower_bridge]])));
                       "count" :=
                         AInt (Z.of_nat
                                 (length (first_group_items
                                            (sights [[big_ben; tower_bridge]])))) ]} |}.
Proof.
  apply (GetLandmarks_counts_the_landmarks
           (with_sights (sights [[big_ben; tower_bridge]])) london_query); [done|].
  apply places_search_answers_london.
Defined.


End HandlerSuccessWitnesses.

Section AdapterWitnesses.

Lemma geocodeCity_not_found_witness :
  result (geocodeCity nowhere "Atlantis" "Ocean") = Err (LocationNotFound "Atlantis, Ocean").
Proof.
  apply (geocodeCity_not_found_iff nowhere "Atlantis" "Ocean" "Atlantis, Ocean").
  split; [reflexivity|]. eexists. split; reflexivity.
Defined.

Lemma geocodeCity_coordinate_witness :
  result (geocodeCity rates_down "London" "England") = Ok (51.5%float, (-0.125)%float).
Proof.
  apply (geocodeCity_coordinate_iff rates_down "London" "England").
  eexists _, london, []. split; [reflexivity|]. split; [reflexivity|]. split; reflexivity.
Defined.

Lemma geocoding_failure_is_wrapped_witness :
  fetchLandmarksFromFoursquare nowhere "Atlantis" "Ocean"
  = (Err (GeocodingFailed (LocationNotFound "Atlantis, Ocean")),
     [nominatimRequest (geocodeQuery "Atlantis" "Ocean")])
  ∧ fetchWeatherFromOpenMeteo nowhere "Atlantis"
    = (Err (GeocodingFailed (LocationNotFound "Atlantis")), [nominatimRequest "Atlantis"]).
Proof.
  split.
  - apply (geocoding_failure_is_wrapped nowhere "Atlantis" "Ocean"
             (LocationNotFound "Atlantis, Ocean")). reflexivity.
  - apply (geocoding_failure_is_wrapped nowhere "Atlantis" "Ocean"
             (LocationNotFound "Atlantis")). reflexivity.
Defined.

Lemma credential_is_checked_after_geocoding_witness :
  result (fetchLandmarksFromFoursquare no_credential "London" "England") = Err APIKeyNotSet
  ∧ trace (fetchLandmarksFromFoursquare no_credential "London" "England")
    = [nominatimRequest (geocodeQuery "London" "England")].
Proof.
  destruct (credential_is_checked_after_geocoding no_credential "London" "England")
    as [Hiff Htrace].
  assert (result (fetchLandmarksFromFoursquare no_credential "London" "England")
          = Err APIKeyNotSet) as Hnot.
  { apply Hiff. split; [|reflexivity]. eexists _, _. reflexivity. }
  split; [exact Hnot | exact (Htrace Hnot)].
Defined.

End AdapterWitnesses.
